(** * LabubuBot: the checkout flow script and its constant adapter

    The repository is one linear browser-automation script ([run]) that
    drives an external browser controller, plus a module that re-exports
    the loaded settings under upper-case names ([CONSTANTS]).

    The script is embedded as an interaction tree: every call it makes to
    the outside (an awaited controller call, a log line, a clock or URL
    read) is an event, and the [while (!found)] poll is a real loop
    ([ITree.iter]).  A rejected promise is the [inl] of the awaited
    answer, so [try]/[catch] is ordinary case analysis.  An executable
    runner [exec] plays a tree against a test double ([Env]) and records
    the transcript. *)

From Stdlib Require Import String Ascii List ZArith Lia Bool Floats.
From stdpp Require Import base option gmap strings.
From ITree Require Import ITree.
Import ListNotations.
Local Open Scope string_scope.
Local Open Scope list_scope.
Set Warnings "-register-all".

(* ================================================================== *)
(** * JSON values and [JSON.stringify] *)

(** The values a seed or a cookie record holds once the settings are
    loaded: what [JSON.parse] yields.  A number is an IEEE 754 double, as
    every JavaScript number is; the fields of an object come in the
    order in which the engine enumerates them. *)
Inductive JSON : Type :=
| JNull
| JBool (b : bool)
| JNum (x : float)
| JStr (s : string)
| JArr (items : list JSON)
| JObj (fields : list (string * JSON)).

Module Json.

Definition dquote : ascii := "034"%char.
Definition backslash : ascii := "092"%char.

Fixpoint digits_of_pos_fuel (fuel : nat) (n : Z) (acc : string) : string :=
  match fuel with
  | O => acc
  | S f =>
      let d := String (ascii_of_nat (48 + Z.to_nat (n mod 10))) acc in
      if (n / 10 =? 0)%Z then d else digits_of_pos_fuel f (n / 10)%Z d
  end.

(** The decimal digits of a whole number that is not negative. *)
Definition digits (n : Z) : string :=
  digits_of_pos_fuel (S (Z.to_nat (Z.log2 n))) n "".

(** A whole number in decimal. *)
Definition decimal (n : Z) : string :=
  match n with
  | Zneg _ => String "-" (digits (- n))
  | _ => digits n
  end.

Definition zeros (n : Z) : string :=
  string_of_list_ascii (repeat "0"%char (Z.to_nat n)).

(** ** Number::toString (ECMA-262, 6.1.6.1.20) *)

(** A finite double that is not zero is [m * 2^e] for a whole mantissa
    [m] of at most 53 bits; a decimal is [s * 10^p].  The two are
    compared after scaling both to whole numbers. *)
Definition scaled2 (m e p : Z) : Z :=
  (m * 2 ^ Z.max e 0 * 10 ^ Z.max (- p) 0)%Z.

Definition scaled10 (s e p : Z) : Z :=
  (s * 10 ^ Z.max p 0 * 2 ^ Z.max (- e) 0)%Z.

(** The [n] with [10^(n-1) <= m * 2^e < 10^n], found from an estimate. *)
Fixpoint magnitude_fuel (fuel : nat) (m e n : Z) : Z :=
  match fuel with
  | O => n
  | S f =>
      if (scaled2 m e (n - 1) <? scaled10 1 e (n - 1))%Z
      then magnitude_fuel f m e (n - 1)%Z
      else if (scaled10 1 e n <=? scaled2 m e n)%Z
      then magnitude_fuel f m e (n + 1)%Z
      else n
  end.

Definition magnitude (m e : Z) : Z :=
  magnitude_fuel 700 m e ((Z.log2 m + e) * 30103 / 100000)%Z.

(** Whether the decimal [s * 10^p] rounds to the double [m * 2^e]: it
    lies between the midpoints to the two neighbouring doubles, the
    midpoints themselves counting when the mantissa is even.  The
    neighbour below is half as far when [m] is a power of two. *)
Definition rounds_to (m e s p : Z) : bool :=
  let below := if (m =? 2 ^ 52)%Z && (-1074 <? e)%Z then 1%Z else 2%Z in
  let low := scaled2 (4 * m - below) (e - 2) p in
  let high := scaled2 (4 * m + 2) (e - 2) p in
  let v := scaled10 s (e - 2) p in
  if Z.even m then (low <=? v)%Z && (v <=? high)%Z
  else (low <? v)%Z && (v <? high)%Z.

(** The [k]-digit decimals at exponent [n] that round to [m * 2^e],
    among the two whole multiples of [10^(n-k)] around it. *)
Definition candidates (m e k n : Z) : list (Z * Z) :=
  let p := (n - k)%Z in
  let q := (scaled2 m e p / scaled10 1 e p)%Z in
  List.filter (fun sn => (10 ^ (k - 1) <=? fst sn)%Z && (fst sn <? 10 ^ k)%Z
                         && rounds_to m e (fst sn) p)
              [(q, n); ((q + 1)%Z, n)].

(** The distance from [s * 10^(n-k)] to [m * 2^e], in units fixed by
    [n0]. *)
Definition distance (m e k n0 : Z) (sn : Z * Z) : Z :=
  let p := (n0 - k)%Z in
  Z.abs (scaled10 (fst sn * 10 ^ (snd sn - n0)) e p - scaled2 m e p).

(** Of two candidates the closer one, and the even one at equal
    distance. *)
Definition closer (m e k n0 : Z) (a b : Z * Z) : Z * Z :=
  let da := distance m e k n0 a in
  let db := distance m e k n0 b in
  if (da <? db)%Z then a
  else if (db <? da)%Z then b
  else if Z.even (fst a) then a else b.

(** The least [k], and with it [s] and [n], such that [s] has [k]
    digits and [s * 10^(n-k)] rounds to [m * 2^e].  Seventeen digits
    always do. *)
Fixpoint shortest_fuel (fuel : nat) (m e n0 k : Z) : Z * Z * Z :=
  match fuel with
  | O => (k, (scaled2 m e (n0 - k) / scaled10 1 e (n0 - k))%Z, n0)
  | S f =>
      match candidates m e k n0 ++ candidates m e k (n0 + 1) with
      | a :: rest =>
          let sn := fold_left (closer m e k n0) rest a in
          (k, fst sn, snd sn)
      | [] => shortest_fuel f m e n0 (k + 1)%Z
      end
  end.

Definition shortest (m e : Z) : Z * Z * Z :=
  shortest_fuel 17 m e (magnitude m e) 1.

(** The text of the positive double [m * 2^e]. *)
Definition positive_to_string (m e : Z) : string :=
  let '(k, s, n) := shortest m e in
  let ds := digits s in
  if (k <=? n)%Z && (n <=? 21)%Z then ds +:+ zeros (n - k)
  else if (0 <? n)%Z && (n <=? 21)%Z then
    substring 0 (Z.to_nat n) ds +:+ "." +:+ substring (Z.to_nat n) (Z.to_nat (k - n)) ds
  else if (-6 <? n)%Z && (n <=? 0)%Z then "0." +:+ zeros (- n) +:+ ds
  else
    let exponent :=
      (if (n - 1 <? 0)%Z then "-" else "+") +:+ digits (Z.abs (n - 1)) in
    if (k =? 1)%Z then ds +:+ "e" +:+ exponent
    else substring 0 1 ds +:+ "." +:+ substring 1 (Z.to_nat (k - 1)) ds
         +:+ "e" +:+ exponent.

(** What JSON.stringify writes for a number: Number::toString when it
    is finite ([0] for both zeros), [null] for NaN and the infinities. *)
Definition number_to_string (x : float) : string :=
  match Prim2SF x with
  | S754_zero _ => "0"
  | S754_finite sign m e =>
      (if sign then "-" else "") +:+ positive_to_string (Zpos m) e
  | S754_infinity _ | S754_nan => "null"
  end.

Definition hex_digit (n : nat) : ascii :=
  if Nat.ltb n 10 then ascii_of_nat (48 + n) else ascii_of_nat (87 + n).

(** ** QuoteJSONString (ECMA-262, 25.5.2.3) *)

(** One character of a quoted string: the two-character escapes,
    [\u00xx] for the other control characters, the character itself
    otherwise. *)
Definition escape_char (c : ascii) : string :=
  let n := nat_of_ascii c in
  if Nat.eqb n 34 then String backslash (String dquote "")
  else if Nat.eqb n 92 then String backslash (String backslash "")
  else if Nat.eqb n 8 then String backslash "b"
  else if Nat.eqb n 12 then String backslash "f"
  else if Nat.eqb n 10 then String backslash "n"
  else if Nat.eqb n 13 then String backslash "r"
  else if Nat.eqb n 9 then String backslash "t"
  else if Nat.ltb n 32 then
    String backslash
      (String "u" (String "0" (String "0"
         (String (hex_digit (Nat.div n 16)) (String (hex_digit (Nat.modulo n 16)) "")))))
  else String c "".

Fixpoint escape (s : string) : string :=
  match s with
  | EmptyString => ""
  | String c rest => escape_char c +:+ escape rest
  end.

Definition quote (s : string) : string :=
  String dquote (escape s +:+ String dquote "").

Fixpoint join (sep : string) (parts : list string) : string :=
  match parts with
  | [] => ""
  | [p] => p
  | p :: rest => p +:+ sep +:+ join sep rest
  end.

(** [JSON.stringify(value)] with no replacer and no indentation
    (ECMA-262, 25.5.2): SerializeJSONProperty on the six kinds of value,
    QuoteJSONString for strings and keys. *)
Fixpoint stringify (v : JSON) : string :=
  match v with
  | JNull => "null"
  | JBool true => "true"
  | JBool false => "false"
  | JNum x => number_to_string x
  | JStr s => quote s
  | JArr items => "[" +:+ join "," (map stringify items) +:+ "]"
  | JObj fields =>
      "{" +:+ join "," (map (fun kv => quote (fst kv) +:+ ":" +:+ stringify (snd kv)) fields) +:+ "}"
  end.

End Json.

(* ================================================================== *)
(** * Settings and the constant adapter (src/utils/constant.js) *)

(** What [require("../config/config_loader")] hands over: the loader is
    not part of the sources, so its four exports are taken as they are
    destructured on line 1 of constant.js. *)
Record Creds := { username : string; password : string }.

Record Locators := {
  login_page : string;
  agreement : string;
  login_field : string;
  login_btn : string;
  password_field : string;
  buy_now : string;
  go_to_cart : string;
  checkout : string;
  checkbox : string;
  pay : string;
  ordering : string
}.

Record Config := { locators : Locators; target_product : string }.

Record Loaded := {
  creds : Creds;
  cookie : list JSON;
  storage : gmap string JSON;
  config : Config
}.

Record CredsExport := { USERNAME : string; PASSWORD : string }.

Record LocatorsExport := {
  LOGIN_PAGE : string;
  AGREEMENT : string;
  LOGIN_FIELD : string;
  LOGIN_BTN : string;
  PASSWORD_FIELD : string;
  BUY_NOW : string;
  GO_TO_CART : string;
  CHECKOUT : string;
  CHECKBOX : string;
  PAY : string;
  ORDERING : string
}.

Record Constants := {
  CREDS : CredsExport;
  LOCATORS : LocatorsExport;
  TARGET_PRODUCT : string;
  COOKIE : list JSON;
  STORAGE : gmap string JSON
}.

(** [module.exports] of constant.js. *)
Definition CONSTANTS (l : Loaded) : Constants := {|
  CREDS := {|
    USERNAME := username (creds l);
    PASSWORD := password (creds l)
  |};
  LOCATORS := {|
    LOGIN_PAGE := login_page (locators (config l));
    AGREEMENT := agreement (locators (config l));
    LOGIN_FIELD := login_field (locators (config l));
    LOGIN_BTN := login_btn (locators (config l));
    PASSWORD_FIELD := password_field (locators (config l));
    BUY_NOW := buy_now (locators (config l));
    GO_TO_CART := go_to_cart (locators (config l));
    CHECKOUT := checkout (locators (config l));
    CHECKBOX := checkbox (locators (config l));
    PAY := pay (locators (config l));
    ORDERING := ordering (locators (config l))
  |};
  TARGET_PRODUCT := target_product (config l);
  COOKIE := cookie l;
  STORAGE := storage l
|}.

(* ================================================================== *)
(** * What the flow script asks of the outside world *)

(** Options object of [page.waitForSelector]; an absent key is [None]. *)
Record WaitOptions := {
  timeout : option Z;
  visible : option bool;
  state : option string
}.

(** The two functions the script ships to the page with
    [page.evaluate], each with the argument it is called on. *)
Inductive PageFunction : Type :=
| SeedLocalStorage (storage : gmap string JSON)
| HighlightElement (selector : string).

(** The awaited calls: the browser controller's operations and the
    [delay] helper.  [locator_click sel force] is
    [page.locator(sel).click()] or [.click({force: true})]. *)
Inductive Op : Type :=
| puppeteer_launch (headless : bool)
| browser_newPage
| page_goto (url : string)
| page_setViewport (width height : Z)
| locator_click (selector : string) (force : bool)
| page_setCookie (cookies : list JSON)
| page_evaluate (fn : PageFunction)
| page_reload
| page_waitForSelector (selector : string) (options : WaitOptions)
| page_waitForNavigation (waitUntil : option string)
| page_hover (selector : string)
| delay (ms : Z)
| browser_close.

Inductive Level : Type := info | warn | error.

(** A rejected promise, as the text the handler prints for it. *)
Definition Err : Type := string.

Section Flow.

(** [performance.now()] yields a floating-point reading; the script
    only subtracts two readings inside a template string, so the
    readings stay abstract and [elapsed now start] is the text of
    [now - start]. *)
Context {Stamp : Type} (elapsed : Stamp -> Stamp -> string).

Variant flowE : Type -> Type :=
| Await (op : Op) : flowE (Err + unit)
| PageUrl : flowE string
| PerformanceNow : flowE Stamp
| Log (level : Level) (line : string) : flowE unit.

(** ** The monad of the script: events, and a failure that unwinds *)

Definition flow (A : Type) : Type := itree flowE (Err + A).

Definition pure {A} (a : A) : flow A := Ret (inr a).

Definition bind {A B} (m : flow A) (k : A -> flow B) : flow B :=
  ITree.bind m (fun r => match r with
                         | inl e => Ret (inl e)
                         | inr a => k a
                         end).

Definition try_catch {A} (body : flow A) (handler : Err -> flow A) : flow A :=
  ITree.bind body (fun r => match r with
                            | inl e => handler e
                            | inr a => Ret (inr a)
                            end).

Definition perform {A} (e : flowE A) : flow A :=
  ITree.bind (ITree.trigger e) (fun a => Ret (inr a)).

Definition await (op : Op) : flow unit := ITree.trigger (Await op).

Definition log (level : Level) (line : string) : flow unit :=
  perform (Log level line).

(** [let found = false; while (!found) { found = body }]: the body
    yields the next value of [found]; a failure escaping the body
    leaves the loop. *)
Definition while_not (body : flow bool) : flow unit :=
  ITree.iter
    (fun found : bool =>
       if found then Ret (inr (inr tt))
       else ITree.bind body (fun r => match r with
                                      | inl e => Ret (inr (inl e))
                                      | inr found' => Ret (inl found')
                                      end))
    false.

Declare Scope flow_scope.
Delimit Scope flow_scope with flow.
Notation "m ;; k" := (bind m (fun _ => k))
  (at level 100, k at level 200, only parsing, right associativity) : flow_scope.
Notation "'let!' x ':=' m 'in' k" := (bind m (fun x => k))
  (at level 10, x name, m at level 100, k at level 200, only parsing) : flow_scope.

(** ** The script (src/unnamed/part_000, lines 6-123) *)

Section Script.

Variable C : Constants.

(** Lines 47-56. *)
Definition poll_buy_now : flow unit :=
  while_not
    (try_catch (
       await (page_waitForSelector (BUY_NOW (LOCATORS C))
                {| timeout := Some 3000%Z; visible := None; state := None |}) ;;
       log info "[+] ADD_TO_CART button found!" ;;
       pure true
     ) (fun _ =>
       log warn "[-] ADD_TO_CART not available, retrying..." ;;
       pure false))%flow.

(** Lines 72-79. *)
Definition try_go_to_cart : flow unit :=
  (try_catch (
     await (page_waitForSelector (GO_TO_CART (LOCATORS C))
              {| timeout := Some 5000%Z; visible := None; state := Some "attached" |}) ;;
     await (locator_click (GO_TO_CART (LOCATORS C)) true) ;;
     log info "[+] GO_TO_CART button found and clicked!"
   ) (fun _ =>
     log warn "[-] GO_TO_CART not available, retrying..."))%flow.

(** Lines 98-104. *)
Definition try_click_pay : flow unit :=
  (try_catch (
     await (locator_click (PAY (LOCATORS C)) true) ;;
     log info "[+] PAY button clicked"
   ) (fun _ =>
     log warn "[-] pay button not clicked"))%flow.

(** Lines 10-118: the body of the outer [try]. *)
Definition run_body (start : Stamp) : flow unit :=
  (await (puppeteer_launch false) ;;
   await browser_newPage ;;
   await (page_goto (TARGET_PRODUCT C)) ;;
   log info "[+] Open login page" ;;
   await (page_setViewport 1080 1024) ;;
   log info "[+] setViewport to 1080x1024" ;;
   await (locator_click (AGREEMENT (LOCATORS C)) false) ;;
   log info "[+] accepted agreement" ;;
   await (page_setCookie (COOKIE C)) ;;
   log info "[+] set cookie" ;;
   await (page_evaluate (SeedLocalStorage (STORAGE C))) ;;
   log info "[+] set local storage" ;;
   await page_reload ;;
   log info "[+] reload web page" ;;
   poll_buy_now ;;
   await (locator_click (BUY_NOW (LOCATORS C)) false) ;;
   log info "[+] ADD_TO_CART clicked" ;;
   await (page_evaluate (HighlightElement (GO_TO_CART (LOCATORS C)))) ;;
   try_go_to_cart ;;
   await (page_waitForNavigation None) ;;
   await (page_waitForSelector (CHECKBOX (LOCATORS C))
            {| timeout := None; visible := None; state := None |}) ;;
   await (locator_click (CHECKBOX (LOCATORS C)) false) ;;
   log info "[+] CHECKBOX found and and clicked!" ;;
   await (page_waitForSelector (CHECKOUT (LOCATORS C))
            {| timeout := Some 1000%Z; visible := None; state := None |}) ;;
   log info "[+] CHECKOUT button found" ;;
   await (locator_click (CHECKOUT (LOCATORS C)) false) ;;
   log info "[+] Proceeding to checkout" ;;
   await (page_waitForNavigation (Some "networkidle2")) ;;
   await (delay 5000) ;;
   log info "[+] waiting for page to load" ;;
   await (page_waitForSelector (PAY (LOCATORS C))
            {| timeout := Some 8000%Z; visible := Some true; state := None |}) ;;
   log info "[+] found PAY button" ;;
   try_click_pay ;;
   await (page_hover (ORDERING (LOCATORS C))) ;;
   log info "[+] BUY!!" ;;
   await (page_waitForNavigation None) ;;
   let! url := perform PageUrl in
   log info ("[+] QR URL: " +:+ url) ;;
   log info "[+] ALL THING DONE! LET'S PAY!" ;;
   log warn "[!] CTRL+C When Everything Done!" ;;
   let! now := perform PerformanceNow in
   log warn ("[!] Total processing time: " +:+ elapsed now start +:+ " ms") ;;
   let! url := perform PageUrl in
   log info ("[+] QR URL: " +:+ url) ;;
   await (delay 999999) ;;
   await browser_close)%flow.

(** Lines 6-123. *)
Definition run : flow unit :=
  (let! start := perform PerformanceNow in
   try_catch (run_body start)
     (fun err => log error ("[-] Error: " +:+ err)))%flow.

End Script.

(* ================================================================ *)
(** * Running the script against a test double *)

(** One line of the transcript of a run. *)
Inductive Entry : Type :=
| Called (op : Op) (answer : Err + unit)
| UrlRead (url : string)
| ClockRead (now : Stamp)
| Logged (level : Level) (line : string).

(** A test double: how the [n]-th awaited call settles, and what the
    page URL and the clock read once [n] calls have been made. *)
Record Env := {
  outcome : nat -> Err + unit;
  page_url : nat -> string;
  clock : nat -> Stamp
}.

(** The transcript so far, newest entry first, and the number of
    awaited calls made. *)
Record World := { past : list Entry; calls : nat }.

Definition start_world : World := {| past := []; calls := 0 |}.

Definition transcript (w : World) : list Entry := rev (past w).

(** The world after a line is written, and after an awaited call
    settled. *)
Definition note (entry : Entry) (w : World) : World :=
  {| past := entry :: past w; calls := calls w |}.

Definition settle (op : Op) (answer : Err + unit) (w : World) : World :=
  {| past := Called op answer :: past w; calls := S (calls w) |}.

Definition handle (env : Env) {T} (e : flowE T) (w : World) : T * World :=
  match e in flowE T return T * World with
  | Await op =>
      let r := outcome env (calls w) in (r, settle op r w)
  | PageUrl =>
      let u := page_url env (calls w) in (u, note (UrlRead u) w)
  | PerformanceNow =>
      let t := clock env (calls w) in (t, note (ClockRead t) w)
  | Log level line => (tt, note (Logged level line) w)
  end.

(** [exec fuel env t w] plays [t] from world [w]; every event and every
    loop back-edge costs one unit of fuel.  The result is [None] when
    the fuel ran out before [t] returned, and otherwise the value
    returned with the fuel left over. *)
Fixpoint exec {R} (fuel : nat) (env : Env) (t : itree flowE R) (w : World)
  : World * option (R * nat) :=
  match observe t with
  | RetF r => (w, Some (r, fuel))
  | TauF t' =>
      match fuel with
      | O => (w, None)
      | S f => exec f env t' w
      end
  | VisF e k =>
      match fuel with
      | O => (w, None)
      | S f => let (a, w') := handle env e w in exec f env (k a) w'
      end
  end.

End Flow.


(* ================================================================== *)
(** * Inside the page: the two functions given to [page.evaluate] *)

Section PageSide.

Record Element := {
  tag : string;
  attributes : gmap string string;
  style : gmap string string
}.

(** The page as the two functions see it: [localStorage] and the
    document's elements. *)
Record Page := {
  localStorage : gmap string string;
  elements : list Element
}.

(** The browser's selector engine, [document.querySelector]: it raises
    on a selector it cannot parse, and otherwise yields the position of
    the first matching element, or [None] for [null]. *)
Variable querySelector : list Element -> string -> Err + option nat.

(** The engine's serializer, [JSON.stringify] called on one argument.
    It is the page's, not the repository's: the injected function is
    taken for whatever serializer the page runs, and [Json.stringify]
    above is the one ECMA-262 describes. *)
Variable JSON_stringify : JSON -> string.

(** Lines 36-40: [for (let key in storage)
    localStorage.setItem(key, JSON.stringify(storage[key]))]. *)
Definition seed_local_storage (storage : gmap string JSON) (p : Page) : Page :=
  {| localStorage :=
       map_fold (fun key value ls => <[key := JSON_stringify value]> ls)
                (localStorage p) storage;
     elements := elements p |}.

(** The four assignments of lines 65-68 on [btn.style]. *)
Definition pin_on_top (btn : Element) : Element :=
  {| tag := tag btn;
     attributes := attributes btn;
     style := <["display" := "block"]>
                (<["opacity" := "1"]>
                   (<["zIndex" := "9999"]>
                      (<["position" := "fixed"]> (style btn)))) |}.

(** Lines 62-70. *)
Definition highlight (selector : string) (p : Page) : Err + Page :=
  match querySelector (elements p) selector with
  | inl e => inl e
  | inr None => inr p
  | inr (Some btn) =>
      inr {| localStorage := localStorage p;
             elements := alter pin_on_top btn (elements p) |}
  end.

Definition evaluate (fn : PageFunction) (p : Page) : Err + Page :=
  match fn with
  | SeedLocalStorage storage => inr (seed_local_storage storage p)
  | HighlightElement selector => highlight selector p
  end.

End PageSide.

(* ================================================================== *)
(** * The constant adapter *)

(** C7. The adapter only renames: each exported field is the loader's
    field of the same (lower-case) name, and COOKIE and STORAGE are the
    loader's values unchanged. *)
Theorem constants_remap (l : Loaded) :
  USERNAME (CREDS (CONSTANTS l)) = username (creds l) /\
  PASSWORD (CREDS (CONSTANTS l)) = password (creds l) /\
  LOGIN_PAGE (LOCATORS (CONSTANTS l)) = login_page (locators (config l)) /\
  AGREEMENT (LOCATORS (CONSTANTS l)) = agreement (locators (config l)) /\
  LOGIN_FIELD (LOCATORS (CONSTANTS l)) = login_field (locators (config l)) /\
  LOGIN_BTN (LOCATORS (CONSTANTS l)) = login_btn (locators (config l)) /\
  PASSWORD_FIELD (LOCATORS (CONSTANTS l)) = password_field (locators (config l)) /\
  BUY_NOW (LOCATORS (CONSTANTS l)) = buy_now (locators (config l)) /\
  GO_TO_CART (LOCATORS (CONSTANTS l)) = go_to_cart (locators (config l)) /\
  CHECKOUT (LOCATORS (CONSTANTS l)) = checkout (locators (config l)) /\
  CHECKBOX (LOCATORS (CONSTANTS l)) = checkbox (locators (config l)) /\
  PAY (LOCATORS (CONSTANTS l)) = pay (locators (config l)) /\
  ORDERING (LOCATORS (CONSTANTS l)) = ordering (locators (config l)) /\
  TARGET_PRODUCT (CONSTANTS l) = target_product (config l) /\
  COOKIE (CONSTANTS l) = cookie l /\
  STORAGE (CONSTANTS l) = storage l.
Proof. repeat split. Qed.

(* ================================================================== *)
(** * Local-storage injection *)

Lemma seed_local_storage_lookup (JSON_stringify : JSON -> string)
    (seed : gmap string JSON) (p : Page) (key : string) :
  localStorage (seed_local_storage JSON_stringify seed p) !! key =
  match seed !! key with
  | Some value => Some (JSON_stringify value)
  | None => localStorage p !! key
  end.
Proof.
  unfold seed_local_storage; cbn.
  apply (map_fold_weak_ind
           (fun ls m => ls !! key = match m !! key with
                                    | Some value => Some (JSON_stringify value)
                                    | None => localStorage p !! key
                                    end)).
  - now rewrite lookup_empty.
  - intros i x m r Hfresh IH.
    destruct (decide (i = key)) as [->|Hne].
    + now rewrite !lookup_insert_eq.
    + now rewrite !lookup_insert_ne by assumption.
Qed.

(** The seed [{a: 1, b: "x"}]. *)
Definition seed_example : gmap string JSON :=
  <["a" := JNum 1]> (<["b" := JStr "x"]> ∅).

(** A seed with a number too large for plain digits, a fraction, an
    array, an object, and a string of the four characters a, double
    quote, line feed, backslash. *)
Definition seed_sample : gmap string JSON :=
  <["count" := JNum 1e21]>
    (<["ratio" := JNum (1 / 10)]>
       (<["flags" := JArr [JBool true; JNull; JNum 1.5; JArr []]]>
          (<["user" := JObj [("id", JNum 7); ("tag", JStr "vip")]]>
             (<["note" := JStr (String "a" (String Json.dquote
                                  (String "010" (String Json.backslash ""))))]> ∅)))).

(** [s] between double quotes, as it is. *)
Definition quoted (s : string) : string :=
  String Json.dquote (s +:+ String Json.dquote "").

(** C5. After the injection every key of the seed is bound to what the
    page's serializer returns for its value, whatever the seed and
    whatever the value (a number is any double), and the keys the seed
    does not have keep what the page had.  With the serializer of
    ECMA-262: for the seed [{a: 1, b: "x"}] the storage holds the text
    [1] for [a] and the three characters quote, x, quote for [b]; and
    for [seed_sample] it holds [1e+21], [0.1], [[true,null,1.5,[]]],
    [{"id":7,"tag":"vip"}] and the quoted string with its quote, line
    feed and backslash escaped. *)
Theorem local_storage_injection :
  (forall (JSON_stringify : JSON -> string)
          (seed : gmap string JSON) (p : Page) (key : string),
      localStorage (seed_local_storage JSON_stringify seed p) !! key =
      match seed !! key with
      | Some value => Some (JSON_stringify value)
      | None => localStorage p !! key
      end) /\
  (forall p : Page,
      localStorage (seed_local_storage Json.stringify seed_example p) !! "a"
      = Some "1" /\
      localStorage (seed_local_storage Json.stringify seed_example p) !! "b"
      = Some (String Json.dquote (String "x" (String Json.dquote "")))) /\
  (forall p : Page,
      localStorage (seed_local_storage Json.stringify seed_sample p) !! "count"
      = Some "1e+21" /\
      localStorage (seed_local_storage Json.stringify seed_sample p) !! "ratio"
      = Some "0.1" /\
      localStorage (seed_local_storage Json.stringify seed_sample p) !! "flags"
      = Some "[true,null,1.5,[]]" /\
      localStorage (seed_local_storage Json.stringify seed_sample p) !! "user"
      = Some ("{" +:+ quoted "id" +:+ ":7," +:+ quoted "tag" +:+ ":" +:+
              quoted "vip" +:+ "}") /\
      localStorage (seed_local_storage Json.stringify seed_sample p) !! "note"
      = Some (quoted ("a" +:+ String Json.backslash (String Json.dquote "") +:+
                      String Json.backslash "n" +:+
                      String Json.backslash (String Json.backslash "")))).
Proof.
  split; [|split].
  - apply seed_local_storage_lookup.
  - intros p. rewrite !seed_local_storage_lookup. split; reflexivity.
  - intros p. rewrite !seed_local_storage_lookup. repeat split; reflexivity.
Qed.

(* ================================================================== *)
(** * The highlight of the go-to-cart control *)

Definition highlighted_props : list string :=
  ["position"; "zIndex"; "opacity"; "display"].

Lemma pin_on_top_style (btn : Element) :
  style (pin_on_top btn) !! "position" = Some "fixed" /\
  style (pin_on_top btn) !! "zIndex" = Some "9999" /\
  style (pin_on_top btn) !! "opacity" = Some "1" /\
  style (pin_on_top btn) !! "display" = Some "block".
Proof.
  unfold pin_on_top; cbn.
  repeat split;
    repeat (first [ rewrite lookup_insert_eq; reflexivity
                  | rewrite lookup_insert_ne by discriminate ]).
Qed.

Lemma pin_on_top_frame (btn : Element) (prop : string) :
  ~ In prop highlighted_props ->
  style (pin_on_top btn) !! prop = style btn !! prop.
Proof.
  unfold highlighted_props; cbn. intros H.
  rewrite !lookup_insert_ne; [reflexivity | intros <-; tauto ..].
Qed.

(** C10. The highlight cannot fail on an absent element: when the
    selector matches nothing the page function returns normally and
    leaves the page as it was; when it matches, the page function
    returns normally, the matched element gets the four style
    properties position, zIndex, opacity and display, and nothing else
    in the page changes (its other style properties, tag and attributes,
    the other elements, the local storage).  The only failure left is
    the selector engine's own. *)
Theorem highlight_guarded
    (querySelector : list Element -> string -> Err + option nat)
    (selector : string) (p : Page) :
  match querySelector (elements p) selector with
  | inr None => highlight querySelector selector p = inr p
  | inr (Some i) =>
      exists p',
        highlight querySelector selector p = inr p' /\
        localStorage p' = localStorage p /\
        length (elements p') = length (elements p) /\
        (forall j, j <> i -> elements p' !! j = elements p !! j) /\
        (forall btn, elements p !! i = Some btn ->
           exists btn',
             elements p' !! i = Some btn' /\
             tag btn' = tag btn /\
             attributes btn' = attributes btn /\
             style btn' !! "position" = Some "fixed" /\
             style btn' !! "zIndex" = Some "9999" /\
             style btn' !! "opacity" = Some "1" /\
             style btn' !! "display" = Some "block" /\
             (forall prop, ~ In prop highlighted_props ->
                style btn' !! prop = style btn !! prop))
  | inl e => highlight querySelector selector p = inl e
  end.
Proof.
  unfold highlight.
  destruct (querySelector (elements p) selector) as [e|[i|]]; try reflexivity.
  eexists; split; [reflexivity|]; cbn.
  split; [reflexivity|].
  split; [apply length_alter|].
  split.
  - intros j Hj. apply list_lookup_alter_ne. congruence.
  - intros btn Hbtn. exists (pin_on_top btn).
    split.
    + rewrite list_lookup_alter_eq, Hbtn. reflexivity.
    + destruct (pin_on_top_style btn) as (H1 & H2 & H3 & H4).
      repeat split; try assumption.
      apply pin_on_top_frame.
Qed.

(* ================================================================== *)
(** * Laws of the runner *)

Section Running.

Context {Stamp : Type}.
Implicit Types (env : @Env Stamp) (w : @World Stamp).

Lemma exec_unfold {R} fuel env (t : itree flowE R) w :
  exec fuel env t w =
  match observe t with
  | RetF r => (w, Some (r, fuel))
  | TauF t' =>
      match fuel with
      | O => (w, None)
      | S f => exec f env t' w
      end
  | VisF e k =>
      match fuel with
      | O => (w, None)
      | S f => let (a, w') := handle env e w in exec f env (k a) w'
      end
  end.
Proof. destruct fuel; reflexivity. Qed.

(** The runner only looks at a tree through [observe]. *)
Lemma exec_observe {R} (t t' : itree flowE R) fuel env w :
  observe t = observe t' -> exec fuel env t w = exec fuel env t' w.
Proof.
  intros H. rewrite (exec_unfold _ _ t), (exec_unfold _ _ t'), H. reflexivity.
Qed.

Lemma exec_ret {R} (r : R) fuel env w :
  exec fuel env (Ret r) w = (w, Some (r, fuel)).
Proof. rewrite exec_unfold. reflexivity. Qed.

Lemma exec_bind {A B} (t : itree flowE A) (k : A -> itree flowE B) fuel env w :
  exec fuel env (ITree.bind t k) w =
  match exec fuel env t w with
  | (w', Some (a, rest)) => exec rest env (k a) w'
  | (w', None) => (w', None)
  end.
Proof.
  revert t w. induction fuel as [|fuel IH]; intros t w;
    rewrite (exec_unfold _ _ (ITree.bind t k)), (exec_unfold _ _ t);
    change (observe (ITree.bind t k))
      with (observe (match observe t with
                     | RetF r => k r
                     | TauF t0 => Tau (ITree.bind t0 k)
                     | VisF e ke => Vis e (fun x => ITree.bind (ke x) k)
                     end));
    destruct (observe t) as [r|t0|X e ke]; cbn; try reflexivity.
  - apply IH.
  - destruct (handle env e w) as [a w']. apply IH.
Qed.

Lemma exec_iter {I R} (step : I -> itree flowE (I + R)) (i : I) fuel env w :
  exec fuel env (ITree.iter step i) w =
  exec fuel env
    (ITree.bind (step i)
       (fun lr => match lr with
                  | inl l => Tau (ITree.iter step l)
                  | inr r => Ret r
                  end)) w.
Proof. apply exec_observe. reflexivity. Qed.

(** Fuel is only ever used up, and the transcript only ever grows. *)
Lemma exec_rest_le {R} (t : itree flowE R) fuel env w w' r rest :
  exec fuel env t w = (w', Some (r, rest)) -> rest <= fuel.
Proof.
  revert t w. induction fuel as [|fuel IH]; intros t w; rewrite exec_unfold;
    destruct (observe t) as [r0|t0|X e k]; try discriminate.
  - intros [= _ _ <-]. lia.
  - intros [= _ _ <-]. lia.
  - intros H. apply IH in H. lia.
  - destruct (handle env e w) as [a w1]. intros H. apply IH in H. lia.
Qed.

Lemma handle_extends {T} env (e : flowE T) w :
  exists entry, past (snd (handle env e w)) = entry :: past w.
Proof. destruct e; cbn; eexists; reflexivity. Qed.

Lemma exec_extends {R} (t : itree flowE R) fuel env w :
  exists more, past (fst (exec fuel env t w)) = more ++ past w.
Proof.
  revert t w. induction fuel as [|fuel IH]; intros t w; rewrite exec_unfold;
    destruct (observe t) as [r0|t0|X e k]; cbn; try (now exists []).
  - apply IH.
  - destruct (handle_extends env e w) as [entry He].
    destruct (handle env e w) as [a w1]; cbn in He.
    destruct (IH (k a) w1) as [more Hm].
    exists (more ++ [entry]). rewrite Hm, He, <- app_assoc. reflexivity.
Qed.

(** ** The script's own operations *)

Lemma exec_flow_bind {A B} (m : flow A) (k : A -> flow B) fuel env w :
  exec fuel env (bind m k) w =
  match exec fuel env m w with
  | (w', Some (inr a, rest)) => exec rest env (k a) w'
  | (w', Some (inl e, rest)) => (w', Some (inl e, rest))
  | (w', None) => (w', None)
  end.
Proof.
  unfold bind. rewrite exec_bind.
  destruct (exec fuel env m w) as [w' [[[e|a] rest]|]]; try reflexivity.
  apply exec_ret.
Qed.

Lemma exec_try_catch {A} (body : flow A) (handler : Err -> flow A) fuel env w :
  exec fuel env (try_catch body handler) w =
  match exec fuel env body w with
  | (w', Some (inr a, rest)) => (w', Some (inr a, rest))
  | (w', Some (inl e, rest)) => exec rest env (handler e) w'
  | (w', None) => (w', None)
  end.
Proof.
  unfold try_catch. rewrite exec_bind.
  destruct (exec fuel env body w) as [w' [[[e|a] rest]|]]; try reflexivity.
  apply exec_ret.
Qed.

Lemma exec_trigger {T} (e : flowE T) fuel env w :
  exec (S fuel) env (ITree.trigger e) w
  = (snd (handle env e w), Some (fst (handle env e w), fuel)).
Proof. cbn. destruct (handle env e w) as [a w']. apply exec_ret. Qed.

Lemma exec_perform {T} (e : flowE T) fuel env w :
  exec (S fuel) env (perform e) w
  = (snd (handle env e w), Some (inr (fst (handle env e w)), fuel)).
Proof. unfold perform. rewrite exec_bind, exec_trigger. apply exec_ret. Qed.

Lemma exec_await (op : Op) fuel env w :
  exec (S fuel) env (await op) w
  = (settle op (outcome env (calls w)) w, Some (outcome env (calls w), fuel)).
Proof. apply exec_trigger. Qed.

Lemma exec_await_O (op : Op) env w : exec 0 env (await op) w = (w, None).
Proof. reflexivity. Qed.

Lemma exec_log (level : Level) (line : string) fuel env w :
  exec (S fuel) env (log level line) w
  = (note (Logged level line) w, Some (inr tt, fuel)).
Proof. apply exec_perform. Qed.

Lemma exec_log_O (level : Level) (line : string) env w :
  exec 0 env (log level line) w = (w, None).
Proof. reflexivity. Qed.

Lemma exec_page_url fuel env w :
  exec (S fuel) env (perform PageUrl) w
  = (note (UrlRead (page_url env (calls w))) w,
     Some (inr (page_url env (calls w)), fuel)).
Proof. apply exec_perform. Qed.

Lemma exec_performance_now fuel env w :
  exec (S fuel) env (perform PerformanceNow) w
  = (note (ClockRead (clock env (calls w))) w,
     Some (inr (clock env (calls w)), fuel)).
Proof. apply exec_perform. Qed.

Lemma exec_perform_O {T} (e : flowE T) env w : exec 0 env (perform e) w = (w, None).
Proof. reflexivity. Qed.

(** One turn of [while (!found)]: the body runs, and a back-edge is
    taken whatever it yields, to the exit when it yields [true]. *)
Lemma exec_while_not (body : flow bool) fuel env w :
  exec fuel env (while_not body) w =
  match exec fuel env body w with
  | (w', Some (inr true, S rest)) => (w', Some (inr tt, rest))
  | (w', Some (inr false, S rest)) => exec rest env (while_not body) w'
  | (w', Some (inr _, O)) => (w', None)
  | (w', Some (inl e, rest)) => (w', Some (inl e, rest))
  | (w', None) => (w', None)
  end.
Proof.
  unfold while_not at 1. rewrite exec_iter. cbn beta iota.
  rewrite !exec_bind.
  destruct (exec fuel env body w) as [w' [[[e|[|]] rest]|]];
    rewrite ?exec_ret; try reflexivity.
  - destruct rest as [|rest]; [reflexivity|].
    cbn [exec observe _observe]. rewrite exec_iter, exec_bind, !exec_ret.
    reflexivity.
  - destruct rest; reflexivity.
Qed.

(** ** Fuel *)

(** Out of fuel, the run stops where it is. *)
Lemma exec_O_world {R} (t : itree flowE R) env w : fst (exec 0 env t w) = w.
Proof. rewrite exec_unfold. destruct (observe t); reflexivity. Qed.

(** A run that returned returns the same with more fuel. *)
Lemma exec_more_fuel {R} (t : itree flowE R) fuel env w w' r rest d :
  exec fuel env t w = (w', Some (r, rest)) ->
  exec (fuel + d) env t w = (w', Some (r, rest + d)).
Proof.
  revert t w. induction fuel as [|fuel IH]; intros t w;
    rewrite (exec_unfold _ _ t), (exec_unfold (_ + d) _ t);
    destruct (observe t) as [r0|t0|X e k]; try discriminate.
  - intros [= <- <- <-]. reflexivity.
  - intros [= <- <- <-]. reflexivity.
  - cbn [Nat.add]. apply IH.
  - cbn [Nat.add]. destruct (handle env e w) as [a w1]. apply IH.
Qed.

(** A run that is still going with some fuel was still going with less. *)
Lemma exec_less_fuel {R} (t : itree flowE R) fuel env w d :
  snd (exec (fuel + d) env t w) = None -> snd (exec fuel env t w) = None.
Proof.
  intros H. destruct (exec fuel env t w) as [w' [[r rest]|]] eqn:E; [|reflexivity].
  rewrite (exec_more_fuel _ _ _ _ _ _ _ d E) in H. discriminate.
Qed.

(** More fuel only adds to the transcript. *)
Lemma exec_fuel_extends {R} (t : itree flowE R) fuel env w d :
  exists more,
    past (fst (exec (fuel + d) env t w)) = more ++ past (fst (exec fuel env t w)).
Proof.
  revert t w. induction fuel as [|fuel IH]; intros t w.
  - rewrite exec_O_world. apply exec_extends.
  - rewrite (exec_unfold (S fuel)), (exec_unfold (S fuel + d)).
    destruct (observe t) as [r0|t0|X e k]; cbn [Nat.add].
    + now exists [].
    + apply IH.
    + destruct (handle env e w) as [a w1]. apply IH.
Qed.

End Running.

(* ================================================================== *)
(** * Reasoning about every run *)

Section Triples.

Context {Stamp : Type}.
Implicit Types (env : @Env Stamp) (w : @World Stamp).

(** [triple env P m Q E D]: started in a world of [P] and whatever the
    fuel, a run of [m] that returns [a] leaves a world of [Q a], one
    that fails with [e] leaves a world of [E e], and one that is cut
    short stands in a world of [D]. *)
Definition triple env (P : World -> Prop) {A} (m : flow A)
    (Q : A -> World -> Prop) (E : Err -> World -> Prop) (D : World -> Prop) : Prop :=
  forall fuel w, P w ->
    match exec fuel env m w with
    | (w', Some (inr a, _)) => Q a w'
    | (w', Some (inl e, _)) => E e w'
    | (w', None) => D w'
    end.

Lemma triple_pure env P {A} (a : A) Q E D :
  (forall w, P w -> Q a w) -> triple env P (pure a) Q E D.
Proof. intros H fuel w HP. unfold pure. rewrite exec_ret. auto. Qed.

Lemma triple_bind env P {A B} (m : flow A) (k : A -> flow B) Q1 Q E D :
  triple env P m Q1 E D ->
  (forall a, triple env (Q1 a) (k a) Q E D) ->
  triple env P (bind m k) Q E D.
Proof.
  intros Hm Hk fuel w HP. rewrite exec_flow_bind. specialize (Hm fuel w HP).
  destruct (exec fuel env m w) as [w' [[[e|a] rest]|]]; auto.
  apply (Hk a rest w' Hm).
Qed.

Lemma triple_try_catch env P {A} (body : flow A) handler E1 Q E D :
  triple env P body Q E1 D ->
  (forall e, triple env (E1 e) (handler e) Q E D) ->
  triple env P (try_catch body handler) Q E D.
Proof.
  intros Hm Hk fuel w HP. rewrite exec_try_catch. specialize (Hm fuel w HP).
  destruct (exec fuel env body w) as [w' [[[e|a] rest]|]]; auto.
  apply (Hk e rest w' Hm).
Qed.

Lemma triple_await env P (op : Op) Q E D :
  (forall w, P w -> D w) ->
  (forall w, P w -> Q tt (settle op (inr tt) w)) ->
  (forall w e, P w -> E e (settle op (inl e) w)) ->
  triple env P (await op) Q E D.
Proof.
  intros HD HQ HE [|fuel] w HP.
  - rewrite exec_await_O. auto.
  - rewrite exec_await. destruct (outcome env (calls w)) as [e|[]]; auto.
Qed.

Lemma triple_perform env P {T} (e : flowE T) Q E D :
  (forall w, P w -> D w) ->
  (forall w, P w -> Q (fst (handle env e w)) (snd (handle env e w))) ->
  triple env P (perform e) Q E D.
Proof.
  intros HD HQ [|fuel] w HP.
  - rewrite exec_perform_O. auto.
  - rewrite exec_perform. auto.
Qed.

Lemma triple_log env P level line Q E D :
  (forall w, P w -> D w) ->
  (forall w, P w -> Q tt (note (Logged level line) w)) ->
  triple env P (log level line) Q E D.
Proof. intros HD HQ. apply triple_perform; assumption. Qed.

(** The loop rule: [P] is the loop invariant. *)
Lemma triple_while_not env P (body : flow bool) Q E D :
  triple env P body (fun found w => (if found then Q tt w else P w) /\ D w) E D ->
  triple env P (while_not body) Q E D.
Proof.
  intros Hb fuel. induction fuel as [fuel IH] using lt_wf_ind. intros w HP.
  rewrite exec_while_not. specialize (Hb fuel w HP).
  destruct (exec fuel env body w) as [w' [[[e|found] rest]|]] eqn:Eb; auto.
  apply exec_rest_le in Eb.
  destruct found, rest as [|rest]; try tauto.
  apply IH; [lia | tauto].
Qed.

(** Sequencing and catching under one invariant. *)
Lemma triple_seq env P {A B} (m : flow A) (k : A -> flow B) Q E D :
  triple env P m (fun _ => P) E D ->
  (forall a, triple env P (k a) Q E D) ->
  triple env P (bind m k) Q E D.
Proof. apply triple_bind. Qed.

Lemma triple_try env P {A} (body : flow A) handler Q E D :
  triple env P body Q (fun _ => P) D ->
  (forall e, triple env P (handler e) Q E D) ->
  triple env P (try_catch body handler) Q E D.
Proof. apply triple_try_catch. Qed.

End Triples.

(** Walks a script statement by statement under one invariant, leaving
    [side] to show that each entry written keeps it. *)
Ltac walk side :=
  repeat
    (intros;
     lazymatch goal with
     | |- triple _ _ (bind _ _) _ _ _ => apply triple_seq
     | |- triple _ _ (try_catch _ _) _ _ _ => apply triple_try
     | |- triple _ _ (while_not _) _ _ _ => apply triple_while_not
     | |- triple _ _ (await _) _ _ _ => apply triple_await; side
     | |- triple _ _ (log _ _) _ _ _ => apply triple_log; side
     | |- triple _ _ (perform _) _ _ _ => apply triple_perform; side
     | |- triple _ _ (pure _) _ _ _ => apply triple_pure; side
     end).

(* ================================================================== *)
(** * How a run ends *)

(** The calls the script makes inside a [try] block of their own: the
    poll's wait (line 50), the go-to-cart wait and click (lines 73-74)
    and the pay click (line 99). *)
Definition poll_wait (C : Constants) : Op :=
  page_waitForSelector (BUY_NOW (LOCATORS C))
    {| timeout := Some 3000%Z; visible := None; state := None |}.

Definition cart_wait (C : Constants) : Op :=
  page_waitForSelector (GO_TO_CART (LOCATORS C))
    {| timeout := Some 5000%Z; visible := None; state := Some "attached" |}.

Definition cart_click (C : Constants) : Op :=
  locator_click (GO_TO_CART (LOCATORS C)) true.

Definition pay_click (C : Constants) : Op :=
  locator_click (PAY (LOCATORS C)) true.

Definition guarded (C : Constants) (op : Op) : Prop :=
  op = poll_wait C \/ op = cart_wait C \/ op = cart_click C \/ op = pay_click C.

(** What the top-level handler prints for a failure (line 120). *)
Definition error_line (e : Err) : string := "[-] Error: " +:+ e.

Section Outcomes.

Context {Stamp : Type} (elapsed : Stamp -> Stamp -> string) (C : Constants).
Implicit Types (env : @Env Stamp) (w : @World Stamp).

(** An entry of a run that is still on its way: a call that failed was
    a guarded one, the browser has not been asked to close, and no error
    line has been written. *)
Definition quiet (entry : @Entry Stamp) : Prop :=
  match entry with
  | Called op (inl _) => guarded C op
  | Called op (inr _) => op <> browser_close
  | Logged error _ => False
  | _ => True
  end.

Definition on_its_way w : Prop := Forall quiet (past w).

(** The world after the last line of the [try] block. *)
Definition closed w : Prop :=
  exists pre, past w = Called browser_close (inr tt) :: pre /\ Forall quiet pre.

(** The world in which a failure [e] reaches the top-level handler. *)
Definition failed (e : Err) w : Prop :=
  exists op pre,
    past w = Called op (inl e) :: pre /\ ~ guarded C op /\ Forall quiet pre.

(** The world after the handler wrote its line. *)
Definition reported w : Prop :=
  exists e op pre,
    past w = Logged error (error_line e) :: Called op (inl e) :: pre /\
    ~ guarded C op /\ Forall quiet pre.

Ltac unguarded :=
  let H := fresh in
  unfold guarded, poll_wait, cart_wait, cart_click, pay_click;
  intros [H|[H|[H|H]]]; discriminate H.

Ltac side :=
  intros;
  unfold on_its_way, failed, closed in *; cbn [past settle note] in *;
  try exact I;
  first
    [ assumption
    | constructor; [cbn; first [exact I | discriminate | unfold guarded, poll_wait, cart_wait, cart_click, pay_click; tauto] | assumption]
    | do 2 eexists; split; [reflexivity | split; [unguarded | assumption]] ].

Lemma run_body_triple env (start : Stamp) :
  triple env on_its_way (run_body elapsed C start)
    (fun _ => closed) failed on_its_way.
Proof.
  unfold run_body, poll_buy_now, try_go_to_cart, try_click_pay.
  walk ltac:(side).
  intros _. apply triple_await; try solve [side].
  intros w H. exists (past w). split; [reflexivity | exact H].
Qed.

(** A run of the whole script: it never fails to its caller; it ends
    [closed] or [reported]; cut short, it is on its way or stands
    between a failure and the handler's line. *)
Lemma run_triple env :
  triple env (fun w => past w = []) (run elapsed C)
    (fun _ w => closed w \/ reported w)
    (fun _ _ => False)
    (fun w => on_its_way w \/ exists e, failed e w).
Proof.
  unfold run. apply triple_bind with (Q1 := fun _ => on_its_way).
  - apply triple_perform.
    + intros w H. left. unfold on_its_way. rewrite H. constructor.
    + intros w H. unfold on_its_way. cbn. rewrite H. repeat constructor.
  - intros start fuel w H. rewrite exec_try_catch.
    pose proof (run_body_triple env start fuel w H) as Hb.
    destruct (exec fuel env (run_body elapsed C start) w) as [w' [[[e|[]] rest]|]].
    + destruct rest as [|rest].
      * rewrite exec_log_O. right. exists e. exact Hb.
      * rewrite exec_log. right.
        destruct Hb as (op & pre & Hpast & Hop & Hpre).
        exists e, op, pre. cbn. rewrite Hpast. auto.
    + left. exact Hb.
    + left. exact Hb.
Qed.

End Outcomes.

(* ================================================================== *)
(** * Scripted test doubles *)

Section Scripts.

Context {Stamp : Type} (elapsed : Stamp -> Stamp -> string).
Implicit Types (env : @Env Stamp) (w : @World Stamp).

(** The answers of the test double from call [c] on begin with
    [script]. *)
Definition answers_from env (c : nat) (script : list (Err + unit)) : Prop :=
  map (outcome env) (seq c (length script)) = script.

Definition starts_with env (script : list (Err + unit)) : Prop :=
  answers_from env 0 script.

Lemma answers_cons env c a script :
  answers_from env c (a :: script) ->
  outcome env c = a /\ answers_from env (S c) script.
Proof. unfold answers_from; cbn. intros [= H1 H2]. split; assumption. Qed.

Lemma answers_app env c s1 s2 :
  answers_from env c (s1 ++ s2) ->
  answers_from env c s1 /\ answers_from env (c + length s1) s2.
Proof.
  revert c. induction s1 as [|a s1 IH]; intros c H.
  - split; [reflexivity|]. cbn. now rewrite Nat.add_0_r.
  - cbn in H. apply answers_cons in H as [Ha H]. apply IH in H as [H1 H2].
    split.
    + unfold answers_from in *; cbn. now rewrite Ha, H1.
    + cbn. now rewrite <- Nat.add_succ_comm.
Qed.

Lemma transcript_note (entry : Entry) w :
  transcript (note entry w) = transcript w ++ [entry].
Proof. reflexivity. Qed.

Lemma transcript_settle op answer w :
  transcript (settle op answer w) = transcript w ++ [Called op answer].
Proof. reflexivity. Qed.

(** ** The poll (lines 47-56) *)

(** The world after a wait that failed with [e], and after the wait
    that succeeded. *)
Definition retry (C : Constants) w (e : Err) : World :=
  note (Logged warn "[-] ADD_TO_CART not available, retrying...")
       (settle (poll_wait C) (inl e) w).

Definition retried (C : Constants) (errs : list Err) w : World :=
  fold_left (retry C) errs w.

Definition found (C : Constants) w : World :=
  note (Logged info "[+] ADD_TO_CART button found!")
       (settle (poll_wait C) (inr tt) w).

(** What the failed waits leave in the transcript. *)
Definition retries (C : Constants) (errs : list Err) : list (@Entry Stamp) :=
  flat_map (fun e => [Called (poll_wait C) (inl e);
                      Logged warn "[-] ADD_TO_CART not available, retrying..."])
           errs.

Lemma transcript_retried C errs w :
  transcript (retried C errs w) = transcript w ++ retries C errs.
Proof.
  revert w. induction errs as [|e errs IH]; intros w; cbn.
  - now rewrite app_nil_r.
  - unfold retried in IH. rewrite IH. unfold retry.
    rewrite transcript_note, transcript_settle, <- !app_assoc. reflexivity.
Qed.

Lemma calls_retried C errs w : calls (retried C errs w) = calls w + length errs.
Proof.
  revert w. induction errs as [|e errs IH]; intros w; cbn.
  - lia.
  - unfold retried in IH. rewrite IH. cbn. lia.
Qed.

Lemma exec_poll_O C env w : exec 0 env (poll_buy_now C) w = (w, None).
Proof.
  unfold poll_buy_now. rewrite exec_while_not, exec_try_catch, exec_flow_bind.
  reflexivity.
Qed.

Lemma exec_poll_retry C env w e f :
  outcome env (calls w) = inl e ->
  exec (S (S (S f))) env (poll_buy_now C) w = exec f env (poll_buy_now C) (retry C w e).
Proof.
  intros H. unfold poll_buy_now at 1.
  rewrite exec_while_not, exec_try_catch, exec_flow_bind, exec_await, H.
  cbn beta iota. rewrite exec_flow_bind, exec_log. cbn beta iota.
  unfold pure. rewrite exec_ret. reflexivity.
Qed.

Lemma exec_poll_found C env w f :
  outcome env (calls w) = inr tt ->
  exec (S (S (S f))) env (poll_buy_now C) w = (found C w, Some (inr tt, f)).
Proof.
  intros H. unfold poll_buy_now.
  rewrite exec_while_not, exec_try_catch, exec_flow_bind, exec_await, H.
  cbn beta iota. rewrite exec_flow_bind, exec_log. cbn beta iota.
  unfold pure. rewrite exec_ret. reflexivity.
Qed.

Lemma exec_poll_retries C env errs w f :
  answers_from env (calls w) (map inl errs) ->
  exec (3 * length errs + f) env (poll_buy_now C) w
  = exec f env (poll_buy_now C) (retried C errs w).
Proof.
  revert w. induction errs as [|e errs IH]; intros w H.
  - reflexivity.
  - cbn [map] in H. apply answers_cons in H as [He H].
    replace (3 * length (e :: errs) + f) with (S (S (S (3 * length errs + f))))
      by (cbn [length]; lia).
    rewrite (exec_poll_retry C env w e _ He). apply IH. exact H.
Qed.

(** ** Stepping through a [try] block *)

Lemma exec_try_bind {A B} (m : flow A) (k : A -> flow B) handler fuel env w :
  exec fuel env (try_catch (bind m k) handler) w =
  match exec fuel env m w with
  | (w', Some (inr a, rest)) => exec rest env (try_catch (k a) handler) w'
  | (w', Some (inl e, rest)) => exec rest env (handler e) w'
  | (w', None) => (w', None)
  end.
Proof.
  rewrite exec_try_catch, exec_flow_bind.
  destruct (exec fuel env m w) as [w' [[[e|a] rest]|]]; try reflexivity.
  now rewrite exec_try_catch.
Qed.

Lemma exec_try_await {B} op (k : unit -> flow B) handler fuel env w :
  exec (S fuel) env (try_catch (bind (await op) k) handler) w =
  match outcome env (calls w) with
  | inr a => exec fuel env (try_catch (k a) handler) (settle op (inr a) w)
  | inl e => exec fuel env (handler e) (settle op (inl e) w)
  end.
Proof.
  rewrite exec_try_bind, exec_await.
  destruct (outcome env (calls w)); reflexivity.
Qed.

Lemma exec_try_log {B} level line (k : unit -> flow B) handler fuel env w :
  exec (S fuel) env (try_catch (bind (log level line) k) handler) w =
  exec fuel env (try_catch (k tt) handler) (note (Logged level line) w).
Proof. rewrite exec_try_bind, exec_log. reflexivity. Qed.

Lemma exec_try_page_url {B} (k : string -> flow B) handler fuel env w :
  exec (S fuel) env (try_catch (bind (perform PageUrl) k) handler) w =
  exec fuel env (try_catch (k (page_url env (calls w))) handler)
       (note (UrlRead (page_url env (calls w))) w).
Proof. rewrite exec_try_bind, exec_page_url. reflexivity. Qed.

Lemma exec_try_performance_now {B} (k : Stamp -> flow B) handler fuel env w :
  exec (S fuel) env (try_catch (bind (perform PerformanceNow) k) handler) w =
  exec fuel env (try_catch (k (clock env (calls w))) handler)
       (note (ClockRead (clock env (calls w))) w).
Proof. rewrite exec_try_bind, exec_performance_now. reflexivity. Qed.

Lemma exec_try_last op handler fuel env w :
  exec (S fuel) env (try_catch (await op) handler) w =
  match outcome env (calls w) with
  | inr a => (settle op (inr a) w, Some (inr a, fuel))
  | inl e => exec fuel env (handler e) (settle op (inl e) w)
  end.
Proof.
  rewrite exec_try_catch, exec_await.
  destruct (outcome env (calls w)); reflexivity.
Qed.

End Scripts.

(** Reads the next scripted answer into the goal. *)
Ltac settle_with H :=
  let Ha := fresh "Ha" in
  apply answers_cons in H as [Ha H];
  cbn [calls settle note start_world] in Ha |- *;
  rewrite Ha; clear Ha.

(** Reads the transcript off a world built entry by entry. *)
Ltac read_transcript :=
  repeat (rewrite transcript_note || rewrite transcript_settle);
  rewrite <- ?app_assoc; cbn [app].

(** One statement of a [try] block against the script [H]. *)
Ltac flow_step H :=
  cbn [calls settle note start_world];
  first
    [ rewrite exec_try_await; settle_with H
    | rewrite exec_try_log
    | rewrite exec_try_page_url
    | rewrite exec_try_performance_now
    | rewrite exec_try_last; settle_with H
    | rewrite exec_log ];
  cbn beta iota.

(* ================================================================== *)
(** * The stages of the flow *)

Section Stages.

Context {Stamp : Type} (elapsed : Stamp -> Stamp -> string).
Implicit Types (env : @Env Stamp) (w : @World Stamp).

(** The poll, against [errs] failing waits and then a wait that
    succeeds. *)
Definition polled (C : Constants) (errs : list Err) w : World :=
  found C (retried C errs w).

Lemma exec_poll C env errs {rest} w :
  answers_from env (calls w) (map inl errs ++ inr tt :: rest) ->
  (forall f, exec (3 * length errs + S (S (S f))) env (poll_buy_now C) w
             = (polled C errs w, Some (inr tt, f))) /\
  answers_from env (calls (polled C errs w)) rest.
Proof.
  intros H. apply answers_app in H as [H1 H2].
  apply answers_cons in H2 as [H2 H3].
  rewrite length_map, <- calls_retried with (C := C) in H2, H3.
  split.
  - intros f. rewrite (exec_poll_retries C env errs w _ H1).
    apply exec_poll_found. exact H2.
  - exact H3.
Qed.

Lemma transcript_polled C errs w :
  transcript (polled C errs w) =
  transcript w ++ retries C errs ++
  [Called (poll_wait C) (inr tt); Logged info "[+] ADD_TO_CART button found!"].
Proof.
  unfold polled, found.
  rewrite transcript_note, transcript_settle, transcript_retried.
  rewrite <- !app_assoc. reflexivity.
Qed.

(** ** Go to cart (lines 72-79) *)

(** The three ways the block can go: the wait fails, the click fails,
    both succeed. *)
Inductive Cart : Type :=
| cart_absent (e : Err)
| cart_stuck (e : Err)
| cart_clicked.

Definition cart_answers (c : Cart) : list (Err + unit) :=
  match c with
  | cart_absent e => [inl e]
  | cart_stuck e => [inr tt; inl e]
  | cart_clicked => [inr tt; inr tt]
  end.

Definition cart_cost (c : Cart) : nat :=
  match c with
  | cart_absent _ => 2
  | cart_stuck _ => 3
  | cart_clicked => 3
  end.

Definition cart_entries (C : Constants) (c : Cart) : list (@Entry Stamp) :=
  match c with
  | cart_absent e =>
      [Called (cart_wait C) (inl e);
       Logged warn "[-] GO_TO_CART not available, retrying..."]
  | cart_stuck e =>
      [Called (cart_wait C) (inr tt);
       Called (cart_click C) (inl e);
       Logged warn "[-] GO_TO_CART not available, retrying..."]
  | cart_clicked =>
      [Called (cart_wait C) (inr tt);
       Called (cart_click C) (inr tt);
       Logged info "[+] GO_TO_CART button found and clicked!"]
  end.

Definition carted (C : Constants) (c : Cart) w : World :=
  {| past := rev (cart_entries C c) ++ past w;
     calls := calls w + length (cart_answers c) |}.

Lemma exec_try_log_last level line handler fuel env w :
  exec (S fuel) env (try_catch (log level line) handler) w =
  (note (Logged level line) w, Some (inr tt, fuel)).
Proof. rewrite exec_try_catch, exec_log. reflexivity. Qed.

Lemma world_eq w (entries : list Entry) n :
  past w = entries -> calls w = n -> w = {| past := entries; calls := n |}.
Proof. destruct w; cbn; intros -> ->; reflexivity. Qed.

Lemma exec_try_go_to_cart C env (c : Cart) {rest} w :
  answers_from env (calls w) (cart_answers c ++ rest) ->
  (forall f, exec (cart_cost c + f) env (try_go_to_cart C) w
             = (carted C c w, Some (inr tt, f))) /\
  answers_from env (calls (carted C c w)) rest.
Proof.
  intros H. apply answers_app in H as [H H']. split; [|exact H'].
  intros f. unfold try_go_to_cart.
  destruct c as [e|e|]; cbn [cart_answers cart_cost Nat.add] in *.
  - apply answers_cons in H as [Ha _].
    rewrite exec_try_await, Ha, exec_log.
    f_equal. apply world_eq; cbn; [reflexivity | lia].
  - apply answers_cons in H as [Ha H]. apply answers_cons in H as [Hb _].
    rewrite exec_try_await, Ha, exec_try_await.
    cbn [calls settle]. rewrite Hb, exec_log.
    f_equal. apply world_eq; cbn; [reflexivity | lia].
  - apply answers_cons in H as [Ha H]. apply answers_cons in H as [Hb _].
    rewrite exec_try_await, Ha, exec_try_await.
    cbn [calls settle]. rewrite Hb, exec_try_log_last.
    f_equal. apply world_eq; cbn; [reflexivity | lia].
Qed.

Lemma transcript_carted C c w :
  transcript (carted C c w) = transcript w ++ cart_entries C c.
Proof.
  unfold transcript, carted; cbn [past]. now rewrite rev_app_distr, rev_involutive.
Qed.

(** ** The pay click (lines 98-104) *)

Definition pay_entries (C : Constants) (a : Err + unit) : list (@Entry Stamp) :=
  [Called (pay_click C) a;
   match a with
   | inr _ => Logged info "[+] PAY button clicked"
   | inl _ => Logged warn "[-] pay button not clicked"
   end].

Definition paid (C : Constants) (a : Err + unit) w : World :=
  {| past := rev (pay_entries C a) ++ past w; calls := S (calls w) |}.

Lemma exec_try_click_pay C env (a : Err + unit) {rest} w :
  answers_from env (calls w) (a :: rest) ->
  (forall f, exec (S (S f)) env (try_click_pay C) w = (paid C a w, Some (inr tt, f))) /\
  answers_from env (calls (paid C a w)) rest.
Proof.
  intros H. unfold try_click_pay. apply answers_cons in H as [Ha H].
  split; [|exact H]. intros f.
  destruct a as [e|[]].
  - rewrite exec_try_await, Ha, exec_log. reflexivity.
  - rewrite exec_try_await, Ha, exec_try_log_last. reflexivity.
Qed.

Lemma transcript_paid C a w :
  transcript (paid C a w) = transcript w ++ pay_entries C a.
Proof.
  unfold transcript, paid; cbn [past]. now rewrite rev_app_distr, rev_involutive.
Qed.

End Stages.

(* ================================================================== *)
(** * What a run looks like from outside *)

(** The awaited calls of a transcript, in order, and the lines logged
    at one level. *)
Definition operations {Stamp} (entries : list (@Entry Stamp)) : list Op :=
  flat_map (fun entry => match entry with
                         | Called op _ => [op]
                         | _ => []
                         end) entries.

Definition lines {Stamp} (level : Level) (entries : list (@Entry Stamp)) : list string :=
  flat_map (fun entry => match entry, level with
                         | Logged info line, info => [line]
                         | Logged warn line, warn => [line]
                         | Logged error line, error => [line]
                         | _, _ => []
                         end) entries.

Lemma operations_app {Stamp} (l1 l2 : list (@Entry Stamp)) :
  operations (l1 ++ l2) = operations l1 ++ operations l2.
Proof. apply flat_map_app. Qed.

Lemma lines_app {Stamp} level (l1 l2 : list (@Entry Stamp)) :
  lines level (l1 ++ l2) = lines level l1 ++ lines level l2.
Proof. apply flat_map_app. Qed.

(** Steps 1-5 of the script, run from the start. *)
Ltac run_to_poll H :=
  unfold starts_with in H; cbn [repeat app] in H; cbn [Nat.add];
  unfold run; rewrite exec_flow_bind, exec_performance_now; cbn beta iota;
  unfold run_body; do 14 flow_step H.

(** The stages that have a lemma of their own. *)
Ltac stage_done E H H' :=
  rewrite E; clear E H; rename H' into H; cbn beta iota.

(** Names the world a stage left, to keep the goal small. *)
Ltac name_world W :=
  first [ set (W := polled _ _ _) in *
        | set (W := carted _ _ _) in *
        | set (W := paid _ _ _) in * ].

Ltac run_poll errs H :=
  rewrite exec_try_bind;
  let E := fresh "E" in
  let H' := fresh "H" in
  lazymatch goal with
  | |- context [exec _ ?env (poll_buy_now ?C) ?w] =>
      destruct (exec_poll C env errs w H) as [E H']
  end;
  cbn [length] in E; rewrite ?Nat.mul_0_r in E; cbn [Nat.add] in E;
  stage_done E H H'.

Ltac run_cart c H :=
  rewrite exec_try_bind;
  let E := fresh "E" in
  let H' := fresh "H" in
  lazymatch goal with
  | |- context [exec _ ?env (try_go_to_cart ?C) ?w] =>
      destruct (exec_try_go_to_cart C env c w H) as [E H']
  end;
  cbn [cart_cost Nat.add] in E;
  stage_done E H H'.

Ltac run_pay a H :=
  rewrite exec_try_bind;
  let E := fresh "E" in
  let H' := fresh "H" in
  lazymatch goal with
  | |- context [exec _ ?env (try_click_pay ?C) ?w] =>
      destruct (exec_try_click_pay C env a w H) as [E H']
  end;
  stage_done E H H'.

Section Claims.

Context {Stamp : Type} (elapsed : Stamp -> Stamp -> string).
Implicit Types (env : @Env Stamp) (w : @World Stamp).

(** ** Expected transcripts, stage by stage *)

(** Lines 7-44 when every call resolves. *)
Definition seeded (C : Constants) (start : Stamp) : list (@Entry Stamp) :=
  [ ClockRead start;
    Called (puppeteer_launch false) (inr tt);
    Called browser_newPage (inr tt);
    Called (page_goto (TARGET_PRODUCT C)) (inr tt);
    Logged info "[+] Open login page";
    Called (page_setViewport 1080 1024) (inr tt);
    Logged info "[+] setViewport to 1080x1024";
    Called (locator_click (AGREEMENT (LOCATORS C)) false) (inr tt);
    Logged info "[+] accepted agreement";
    Called (page_setCookie (COOKIE C)) (inr tt);
    Logged info "[+] set cookie";
    Called (page_evaluate (SeedLocalStorage (STORAGE C))) (inr tt);
    Logged info "[+] set local storage";
    Called page_reload (inr tt);
    Logged info "[+] reload web page" ].

(** Lines 50-52, the wait that succeeds. *)
Definition spotted (C : Constants) : list (@Entry Stamp) :=
  [ Called (poll_wait C) (inr tt);
    Logged info "[+] ADD_TO_CART button found!" ].

(** Lines 58-70 when both calls resolve. *)
Definition bought (C : Constants) : list (@Entry Stamp) :=
  [ Called (locator_click (BUY_NOW (LOCATORS C)) false) (inr tt);
    Logged info "[+] ADD_TO_CART clicked";
    Called (page_evaluate (HighlightElement (GO_TO_CART (LOCATORS C)))) (inr tt) ].

(** Lines 81-94 when every call resolves. *)
Definition checked_out (C : Constants) : list (@Entry Stamp) :=
  [ Called (page_waitForNavigation None) (inr tt);
    Called (page_waitForSelector (CHECKBOX (LOCATORS C))
              {| timeout := None; visible := None; state := None |}) (inr tt);
    Called (locator_click (CHECKBOX (LOCATORS C)) false) (inr tt);
    Logged info "[+] CHECKBOX found and and clicked!";
    Called (page_waitForSelector (CHECKOUT (LOCATORS C))
              {| timeout := Some 1000%Z; visible := None; state := None |}) (inr tt);
    Logged info "[+] CHECKOUT button found";
    Called (locator_click (CHECKOUT (LOCATORS C)) false) (inr tt);
    Logged info "[+] Proceeding to checkout";
    Called (page_waitForNavigation (Some "networkidle2")) (inr tt);
    Called (delay 5000) (inr tt);
    Logged info "[+] waiting for page to load" ].

(** The wait of line 96. *)
Definition pay_wait (C : Constants) : Op :=
  page_waitForSelector (PAY (LOCATORS C))
    {| timeout := Some 8000%Z; visible := Some true; state := None |}.

Lemma operations_retries C errs :
  operations (@retries Stamp C errs) = repeat (poll_wait C) (length errs).
Proof. induction errs as [|e errs IH]; cbn; [reflexivity | now rewrite <- IH]. Qed.

Lemma lines_warn_retries C errs :
  lines warn (@retries Stamp C errs)
  = repeat "[-] ADD_TO_CART not available, retrying..." (length errs).
Proof. induction errs as [|e errs IH]; cbn; [reflexivity | now rewrite <- IH]. Qed.

Lemma lines_error_retries C errs : lines error (@retries Stamp C errs) = [].
Proof. induction errs as [|e errs IH]; cbn; [reflexivity | exact IH]. Qed.

Lemma lines_error_cart C c : lines error (@cart_entries Stamp C c) = [].
Proof. destruct c; reflexivity. Qed.

(** Puts a transcript read off a world into the shape of the expected
    one. *)
Ltac expected :=
  cbn [fst snd];
  repeat first
    [ rewrite transcript_note | rewrite transcript_settle
    | rewrite transcript_paid | rewrite transcript_carted
    | rewrite transcript_polled | rewrite transcript_retried ];
  unfold seeded, spotted, bought, checked_out, pay_entries;
  rewrite <- ?app_assoc; cbn [app]; try reflexivity.


(** ** The run in which every call resolves *)

(** C1. Against a test double that resolves every call, the run
    completes (52 events) and the awaited calls are, in this order:
    launch (not headless), new page, goto the target product,
    setViewport 1080x1024, click on the agreement, setCookie with the
    configured cookies, evaluate the local-storage seeding, reload;
    then the poll's wait, the click on buy-now, the highlight, the
    go-to-cart wait and forced click, the navigation wait, the checkbox
    wait and click, the checkout wait and click, the network-idle
    navigation wait, the 5000 ms delay, the pay wait, the forced pay
    click, the hover, the navigation wait, the 999999 ms delay and, last,
    the close. *)
Theorem happy_path_order (C : Constants) env :
  starts_with env (repeat (inr tt) 26) ->
  exists w,
    (forall f, exec (52 + f) env (run elapsed C) start_world = (w, Some (inr tt, f))) /\
    operations (transcript w) =
      [ puppeteer_launch false;
        browser_newPage;
        page_goto (TARGET_PRODUCT C);
        page_setViewport 1080 1024;
        locator_click (AGREEMENT (LOCATORS C)) false;
        page_setCookie (COOKIE C);
        page_evaluate (SeedLocalStorage (STORAGE C));
        page_reload;
        page_waitForSelector (BUY_NOW (LOCATORS C))
          {| timeout := Some 3000%Z; visible := None; state := None |};
        locator_click (BUY_NOW (LOCATORS C)) false;
        page_evaluate (HighlightElement (GO_TO_CART (LOCATORS C)));
        page_waitForSelector (GO_TO_CART (LOCATORS C))
          {| timeout := Some 5000%Z; visible := None; state := Some "attached" |};
        locator_click (GO_TO_CART (LOCATORS C)) true;
        page_waitForNavigation None;
        page_waitForSelector (CHECKBOX (LOCATORS C))
          {| timeout := None; visible := None; state := None |};
        locator_click (CHECKBOX (LOCATORS C)) false;
        page_waitForSelector (CHECKOUT (LOCATORS C))
          {| timeout := Some 1000%Z; visible := None; state := None |};
        locator_click (CHECKOUT (LOCATORS C)) false;
        page_waitForNavigation (Some "networkidle2");
        delay 5000;
        page_waitForSelector (PAY (LOCATORS C))
          {| timeout := Some 8000%Z; visible := Some true; state := None |};
        locator_click (PAY (LOCATORS C)) true;
        page_hover (ORDERING (LOCATORS C));
        page_waitForNavigation None;
        delay 999999;
        browser_close ].
Proof.
  intros H.
  eexists. split.
  - intros f. run_to_poll H.
    run_poll (@nil Err) H. name_world Wp.
    do 3 flow_step H.
    run_cart cart_clicked H. name_world Wc.
    do 13 flow_step H.
    run_pay (@inr Err unit tt) H. name_world Wy.
    do 13 flow_step H.
    subst Wp Wc Wy. reflexivity.
  - reflexivity.
Qed.

(** ** The poll *)

Lemma answers_join env c s1 s2 :
  answers_from env c s1 -> answers_from env (c + length s1) s2 ->
  answers_from env c (s1 ++ s2).
Proof.
  unfold answers_from. intros H1 H2.
  rewrite length_app, seq_app, map_app, H1, H2. reflexivity.
Qed.

(** A test double whose calls from [c] on all fail has a failing script
    of every length. *)
Lemma failing_script env c :
  (forall k, exists e, outcome env (c + k) = inl e) ->
  forall n, exists errs, length errs = n /\ answers_from env c (map inl errs).
Proof.
  intros H n. revert c H. induction n as [|n IH]; intros c H.
  - exists []. split; reflexivity.
  - destruct (H 0) as [e He]. rewrite Nat.add_0_r in He.
    destruct (IH (S c)) as (errs & Hlen & Herrs).
    { intros k. destruct (H (S k)) as [e' He']. exists e'.
      now rewrite <- Nat.add_succ_comm in He'. }
    exists (e :: errs). split; [cbn; now rewrite Hlen|].
    unfold answers_from in *. cbn. now rewrite He, Herrs.
Qed.

(** After [n] failed waits the script is still in the poll. *)
Lemma run_polling C env errs :
  starts_with env (repeat (inr tt) 8 ++ map inl errs) ->
  exec (3 * length errs + 15) env (run elapsed C) start_world
  = (retried C errs
       {| past := rev (seeded C (clock env 0)); calls := 8 |}, None).
Proof.
  intros H.
  replace (3 * length errs + 15) with (15 + (3 * length errs + 0)) by lia.
  run_to_poll H.
  rewrite exec_try_bind.
  lazymatch goal with
  | |- context [exec _ env (poll_buy_now C) ?w] =>
      rewrite (exec_poll_retries C env errs w _ H)
  end.
  rewrite exec_poll_O. reflexivity.
Qed.

(** C3. The poll of step 6.  When the first [length errs] waits fail and
    the next one succeeds, the transcript after the seeding is: for each
    failure one wait and one warning, then the wait that succeeds, the
    info line, and only then the click on buy-now.  Every wait of the
    poll is issued with a 3000 ms timeout and no other option, and the
    failed waits leave exactly one warning each.  While the waits keep
    failing the run has not returned and has done nothing but retry; and
    against a test double whose waits all fail, it never returns. *)
Theorem buy_now_poll (C : Constants) env :
  (forall errs click,
      starts_with env (repeat (inr tt) 8 ++ map inl errs ++ [inr tt; click]) ->
      transcript (fst (exec (3 * length errs + 19) env (run elapsed C) start_world))
      = seeded C (clock env 0) ++ retries C errs ++
        [ Called (page_waitForSelector (BUY_NOW (LOCATORS C))
                    {| timeout := Some 3000%Z; visible := None; state := None |})
                 (inr tt);
          Logged info "[+] ADD_TO_CART button found!";
          Called (locator_click (BUY_NOW (LOCATORS C)) false) click ]) /\
  (forall errs,
      operations (@retries Stamp C errs)
      = repeat (page_waitForSelector (BUY_NOW (LOCATORS C))
                  {| timeout := Some 3000%Z; visible := None; state := None |})
               (length errs) /\
      lines warn (@retries Stamp C errs)
      = repeat "[-] ADD_TO_CART not available, retrying..." (length errs)) /\
  (forall errs,
      starts_with env (repeat (inr tt) 8 ++ map inl errs) ->
      snd (exec (3 * length errs + 15) env (run elapsed C) start_world) = None /\
      transcript (fst (exec (3 * length errs + 15) env (run elapsed C) start_world))
      = seeded C (clock env 0) ++ retries C errs) /\
  (starts_with env (repeat (inr tt) 8) ->
   (forall k, exists e, outcome env (8 + k) = inl e) ->
   forall fuel, snd (exec fuel env (run elapsed C) start_world) = None).
Proof.
  split; [|split; [|split]].
  - intros errs click H.
    replace (3 * length errs + 19) with (15 + (3 * length errs + (3 + 1))) by lia.
    run_to_poll H. run_poll errs H. name_world Wp.
    flow_step H.
    assert (forall t : itree flowE (Err + unit),
               transcript (fst (exec 0 env t
                 (settle (locator_click (BUY_NOW (LOCATORS C)) false) click Wp)))
               = transcript Wp
                 ++ [Called (locator_click (BUY_NOW (LOCATORS C)) false) click])
      as Hend by (intros t; now rewrite exec_O_world).
    destruct click as [e|[]]; rewrite Hend; subst Wp; expected.
  - intros errs. split; [apply operations_retries | apply lines_warn_retries].
  - intros errs H. rewrite (run_polling C env errs H). split; [reflexivity|].
    expected.
  - intros Hseed Hfail fuel.
    destruct (failing_script env 8 Hfail fuel) as (errs & Hlen & Herrs).
    apply exec_less_fuel with (d := 2 * fuel + 15).
    replace (fuel + (2 * fuel + 15)) with (3 * length errs + 15) by lia.
    rewrite (run_polling C env errs); [reflexivity|].
    apply answers_join; assumption.
Qed.

(** ** Failures inside a [try] block of their own *)

(** Ends a run that is cut short right after a call: what the call
    answered decides what comes next, not what has been written. *)
Ltac cut_short answer :=
  destruct answer as [?|[]]; rewrite exec_O_world.

(** C2. The go-to-cart block (step 8) and the pay click (step 12) do not
    end the run.  When the go-to-cart wait fails, or the wait succeeds
    and the forced click fails, the script logs a warning and its next
    call is the navigation wait of step 9.  When the forced pay click
    fails, the script logs a warning and its next call is the hover.
    The pay wait of line 96 stands outside the [try] block: when it
    fails, the failure goes to the top-level handler, which logs the
    error, and the run is over without a warning and without a hover. *)
Theorem cart_and_pay_click_failures_continue (C : Constants) env :
  (forall errs e next,
      starts_with env (repeat (inr tt) 8 ++ map inl errs ++
                       inr tt :: inr tt :: inr tt :: [inl e; next]) ->
      transcript (fst (exec (3 * length errs + 24) env (run elapsed C) start_world))
      = seeded C (clock env 0) ++ retries C errs ++ spotted C ++ bought C ++
        [ Called (cart_wait C) (inl e);
          Logged warn "[-] GO_TO_CART not available, retrying...";
          Called (page_waitForNavigation None) next ]) /\
  (forall errs e next,
      starts_with env (repeat (inr tt) 8 ++ map inl errs ++
                       inr tt :: inr tt :: inr tt :: [inr tt; inl e; next]) ->
      transcript (fst (exec (3 * length errs + 25) env (run elapsed C) start_world))
      = seeded C (clock env 0) ++ retries C errs ++ spotted C ++ bought C ++
        [ Called (cart_wait C) (inr tt);
          Called (cart_click C) (inl e);
          Logged warn "[-] GO_TO_CART not available, retrying...";
          Called (page_waitForNavigation None) next ]) /\
  (forall errs c e next,
      starts_with env (repeat (inr tt) 8 ++ map inl errs ++
                       inr tt :: inr tt :: inr tt :: cart_answers c ++
                       repeat (inr tt) 8 ++ [inl e; next]) ->
      transcript (fst (exec (3 * length errs + 21 + (cart_cost c + 16))
                            env (run elapsed C) start_world))
      = seeded C (clock env 0) ++ retries C errs ++ spotted C ++ bought C ++
        cart_entries C c ++ checked_out C ++
        [ Called (pay_wait C) (inr tt);
          Logged info "[+] found PAY button";
          Called (pay_click C) (inl e);
          Logged warn "[-] pay button not clicked";
          Called (page_hover (ORDERING (LOCATORS C))) next ]) /\
  (forall errs c e,
      starts_with env (repeat (inr tt) 8 ++ map inl errs ++
                       inr tt :: inr tt :: inr tt :: cart_answers c ++
                       repeat (inr tt) 7 ++ [inl e]) ->
      exists w,
        (forall f, exec (3 * length errs + 21 + (cart_cost c + (13 + f)))
                        env (run elapsed C) start_world
                   = (w, Some (inr tt, f))) /\
        transcript w
        = seeded C (clock env 0) ++ retries C errs ++ spotted C ++ bought C ++
          cart_entries C c ++ checked_out C ++
          [ Called (pay_wait C) (inl e);
            Logged error (error_line e) ]).
Proof.
  split; [|split; [|split]].
  - intros errs e next H.
    replace (3 * length errs + 24)
      with (15 + (3 * length errs + (3 + (3 + (2 + 1))))) by lia.
    run_to_poll H. run_poll errs H. name_world Wp.
    do 3 flow_step H.
    run_cart (cart_absent e) H. name_world Wc.
    flow_step H. cut_short next; subst Wp Wc; expected.
  - intros errs e next H.
    replace (3 * length errs + 25)
      with (15 + (3 * length errs + (3 + (3 + (3 + 1))))) by lia.
    run_to_poll H. run_poll errs H. name_world Wp.
    do 3 flow_step H.
    run_cart (cart_stuck e) H. name_world Wc.
    flow_step H. cut_short next; subst Wp Wc; expected.
  - intros errs c e next H.
    replace (3 * length errs + 21 + (cart_cost c + 16))
      with (15 + (3 * length errs + (3 + (3 + (cart_cost c + (13 + (2 + 1)))))))
      by lia.
    run_to_poll H. run_poll errs H. name_world Wp.
    do 3 flow_step H.
    run_cart c H. name_world Wc.
    do 13 flow_step H.
    run_pay (@inl Err unit e) H. name_world Wy.
    flow_step H. cut_short next; subst Wp Wc Wy; expected.
  - intros errs c e H.
    eexists. split.
    + intros f.
      replace (3 * length errs + 21 + (cart_cost c + (13 + f)))
        with (15 + (3 * length errs + (3 + (3 + (cart_cost c + (13 + f))))))
        by lia.
      run_to_poll H. run_poll errs H. name_world Wp.
      do 3 flow_step H.
      run_cart c H. name_world Wc.
      do 13 flow_step H.
      subst Wp Wc. reflexivity.
    + expected.
Qed.
(** ** Failures that reach the top-level handler *)

(** C4. A failure of the agreement click (step 4), of the checkbox wait
    (step 9) or of the checkout wait (step 10) goes to the top-level
    handler: the run completes, the failed call is the last call of the
    transcript, the only thing after it is the handler's line, and that
    line is the only error line of the run. *)
Theorem unguarded_failures_abort (C : Constants) env :
  (forall e,
      starts_with env [inr tt; inr tt; inr tt; inr tt; inl e] ->
      exists w,
        (forall f, exec (9 + f) env (run elapsed C) start_world
                   = (w, Some (inr tt, f))) /\
        transcript w
        = [ ClockRead (clock env 0);
            Called (puppeteer_launch false) (inr tt);
            Called browser_newPage (inr tt);
            Called (page_goto (TARGET_PRODUCT C)) (inr tt);
            Logged info "[+] Open login page";
            Called (page_setViewport 1080 1024) (inr tt);
            Logged info "[+] setViewport to 1080x1024";
            Called (locator_click (AGREEMENT (LOCATORS C)) false) (inl e);
            Logged error (error_line e) ] /\
        lines error (transcript w) = [error_line e]) /\
  (forall errs c e,
      starts_with env (repeat (inr tt) 8 ++ map inl errs ++
                       inr tt :: inr tt :: inr tt :: cart_answers c ++
                       [inr tt; inl e]) ->
      exists w,
        (forall f, exec (3 * length errs + 21 + (cart_cost c + (3 + f)))
                        env (run elapsed C) start_world
                   = (w, Some (inr tt, f))) /\
        transcript w
        = seeded C (clock env 0) ++ retries C errs ++ spotted C ++ bought C ++
          cart_entries C c ++
          [ Called (page_waitForNavigation None) (inr tt);
            Called (page_waitForSelector (CHECKBOX (LOCATORS C))
                      {| timeout := None; visible := None; state := None |})
                   (inl e);
            Logged error (error_line e) ] /\
        lines error (transcript w) = [error_line e]) /\
  (forall errs c e,
      starts_with env (repeat (inr tt) 8 ++ map inl errs ++
                       inr tt :: inr tt :: inr tt :: cart_answers c ++
                       [inr tt; inr tt; inr tt; inl e]) ->
      exists w,
        (forall f, exec (3 * length errs + 21 + (cart_cost c + (6 + f)))
                        env (run elapsed C) start_world
                   = (w, Some (inr tt, f))) /\
        transcript w
        = seeded C (clock env 0) ++ retries C errs ++ spotted C ++ bought C ++
          cart_entries C c ++
          [ Called (page_waitForNavigation None) (inr tt);
            Called (page_waitForSelector (CHECKBOX (LOCATORS C))
                      {| timeout := None; visible := None; state := None |})
                   (inr tt);
            Called (locator_click (CHECKBOX (LOCATORS C)) false) (inr tt);
            Logged info "[+] CHECKBOX found and and clicked!";
            Called (page_waitForSelector (CHECKOUT (LOCATORS C))
                      {| timeout := Some 1000%Z; visible := None; state := None |})
                   (inl e);
            Logged error (error_line e) ] /\
        lines error (transcript w) = [error_line e]).
Proof.
  split; [|split].
  - intros e H.
    eexists. split.
    + intros f. unfold starts_with in H. cbn [Nat.add].
      unfold run. rewrite exec_flow_bind, exec_performance_now. cbn beta iota.
      unfold run_body. do 8 flow_step H. reflexivity.
    + split; reflexivity.
  - intros errs c e H.
    eexists. split.
    + intros f.
      replace (3 * length errs + 21 + (cart_cost c + (3 + f)))
        with (15 + (3 * length errs + (3 + (3 + (cart_cost c + (3 + f))))))
        by lia.
      run_to_poll H. run_poll errs H. name_world Wp.
      do 3 flow_step H.
      run_cart c H. name_world Wc.
      do 3 flow_step H.
      subst Wp Wc. reflexivity.
    + match goal with
      | |- ?T = ?L /\ _ => assert (T = L) as -> by expected
      end.
      split; [reflexivity|].
      rewrite !lines_app, lines_error_retries, lines_error_cart. reflexivity.
  - intros errs c e H.
    eexists. split.
    + intros f.
      replace (3 * length errs + 21 + (cart_cost c + (6 + f)))
        with (15 + (3 * length errs + (3 + (3 + (cart_cost c + (6 + f))))))
        by lia.
      run_to_poll H. run_poll errs H. name_world Wp.
      do 3 flow_step H.
      run_cart c H. name_world Wc.
      do 6 flow_step H.
      subst Wp Wc. reflexivity.
    + match goal with
      | |- ?T = ?L /\ _ => assert (T = L) as -> by expected
      end.
      split; [reflexivity|].
      rewrite !lines_app, lines_error_retries, lines_error_cart. reflexivity.
Qed.

(** ** The credentials *)

(** C9. The script does not read the credentials: for two loaded
    settings that agree on the cookies, the local-storage seed and the
    configuration, whatever their credentials, it is the same script, and
    so against the same test double every run makes the same calls with
    the same arguments and logs the same lines. *)
Theorem credentials_never_read (l1 l2 : Loaded) :
  cookie l1 = cookie l2 -> storage l1 = storage l2 -> config l1 = config l2 ->
  run elapsed (CONSTANTS l1) = run elapsed (CONSTANTS l2) /\
  forall env fuel,
    exec fuel env (run elapsed (CONSTANTS l1)) start_world
    = exec fuel env (run elapsed (CONSTANTS l2)) start_world.
Proof.
  destruct l1 as [c1 k1 s1 g1], l2 as [c2 k2 s2 g2]; cbn [cookie storage config].
  intros -> -> ->.
  assert (run elapsed (CONSTANTS {| creds := c1; cookie := k2; storage := s2; config := g2 |})
          = run elapsed (CONSTANTS {| creds := c2; cookie := k2; storage := s2; config := g2 |}))
    as Hrun by reflexivity.
  split; [exact Hrun|]. intros env fuel. now rewrite Hrun.
Qed.
(** ** Launch and viewport *)

(** What the script fixes in its own text: a launch is not headless, a
    viewport is 1080 by 1024. *)
Definition as_configured (entry : @Entry Stamp) : Prop :=
  match entry with
  | Called (puppeteer_launch headless) _ => headless = false
  | Called (page_setViewport width height) _ => width = 1080%Z /\ height = 1024%Z
  | _ => True
  end.

Ltac configured_side :=
  intros; cbn [past settle note handle fst snd] in *;
  first
    [ assumption
    | constructor;
      [ first [exact I | reflexivity | split; reflexivity] | assumption ]
    | split; assumption ].

Lemma run_configured (C : Constants) env :
  triple env (fun w => Forall as_configured (past w)) (run elapsed C)
    (fun _ w => Forall as_configured (past w))
    (fun _ w => Forall as_configured (past w))
    (fun w => Forall as_configured (past w)).
Proof.
  unfold run, run_body, poll_buy_now, try_go_to_cart, try_click_pay.
  walk ltac:(configured_side).
Qed.

Lemma transcript_grows {R} (t : itree flowE R) fuel env w d :
  exists rest,
    transcript (fst (exec (fuel + d) env t w))
    = transcript (fst (exec fuel env t w)) ++ rest.
Proof.
  destruct (exec_fuel_extends t fuel env w d) as [more H].
  exists (rev more). unfold transcript. rewrite H. apply rev_app_distr.
Qed.

(** C8. Whatever the settings and whatever the test double answers:
    every launch in a transcript is a non-headless one and every
    viewport set is 1080 by 1024; the first call of every run is the
    non-headless launch; and when the launch, the new page and the
    navigation resolve, the next call sets the viewport to 1080 by
    1024. *)
Theorem launch_and_viewport_fixed (C : Constants) env fuel :
  Forall as_configured (transcript (fst (exec fuel env (run elapsed C) start_world))) /\
  (exists rest,
      transcript (fst (exec (2 + fuel) env (run elapsed C) start_world))
      = [ ClockRead (clock env 0);
          Called (puppeteer_launch false) (outcome env 0) ] ++ rest) /\
  (starts_with env [inr tt; inr tt; inr tt] ->
   exists rest,
     transcript (fst (exec (6 + fuel) env (run elapsed C) start_world))
     = [ ClockRead (clock env 0);
         Called (puppeteer_launch false) (inr tt);
         Called browser_newPage (inr tt);
         Called (page_goto (TARGET_PRODUCT C)) (inr tt);
         Logged info "[+] Open login page";
         Called (page_setViewport 1080 1024) (outcome env 3) ] ++ rest).
Proof.
  split; [|split].
  - apply Forall_rev.
    pose proof (run_configured C env fuel start_world ltac:(constructor)) as H.
    destruct (exec fuel env (run elapsed C) start_world) as [w [[[e|a] rest]|]];
      exact H.
  - destruct (transcript_grows (run elapsed C) 2 env start_world fuel) as [rest ->].
    exists rest. f_equal.
    unfold run. rewrite exec_flow_bind, exec_performance_now. cbn beta iota.
    unfold run_body. rewrite exec_try_await. cbn [calls note start_world].
    destruct (outcome env 0) as [e|[]]; now rewrite exec_O_world.
  - intros H.
    destruct (transcript_grows (run elapsed C) 6 env start_world fuel) as [rest ->].
    exists rest. f_equal. unfold starts_with in H.
    unfold run. rewrite exec_flow_bind, exec_performance_now. cbn beta iota.
    unfold run_body. do 4 flow_step H.
    rewrite exec_try_await. cbn [calls settle note start_world].
    destruct (outcome env 3) as [e|[]]; now rewrite exec_O_world.
Qed.

(** ** The failure path *)

(** The run is the clock reading followed by the [try] block and its
    handler. *)
Lemma run_unfold (C : Constants) env fuel :
  exec (S fuel) env (run elapsed C) start_world =
  match exec fuel env (run_body elapsed C (clock env 0))
             (note (ClockRead (clock env 0)) start_world) with
  | (w', Some (inr a, rest)) => (w', Some (inr a, rest))
  | (w', Some (inl e, rest)) => exec rest env (log error (error_line e)) w'
  | (w', None) => (w', None)
  end.
Proof.
  unfold run. rewrite exec_flow_bind, exec_performance_now. cbn beta iota.
  apply exec_try_catch.
Qed.

Lemma quiet_facts (C : Constants) (entries : list (@Entry Stamp)) :
  Forall (quiet C) entries ->
  ~ In browser_close (operations entries) /\ lines error entries = [].
Proof.
  induction 1 as [|entry entries Hq _ [IH1 IH2]]; [split; [intros []|reflexivity]|].
  destruct entry as [op [e|a]|url|now|[] line]; cbn in *;
    try solve [split; assumption]; try contradiction.
  - split; [|assumption]. intros [->|H]; [|exact (IH1 H)].
    destruct Hq as [Hq|[Hq|[Hq|Hq]]]; discriminate Hq.
  - split; [|assumption]. intros [->|H]; [|exact (IH1 H)]. now apply Hq.
Qed.

Lemma past_of_transcript w (entries : list (@Entry Stamp)) :
  transcript w = entries -> past w = rev entries.
Proof. unfold transcript. intros <-. now rewrite rev_involutive. Qed.

(** A failed call that no [try] block of its own guards is the last
    thing a run does before the handler's line. *)
Lemma unguarded_failure_reported (C : Constants) env fuel op e pre :
  past (fst (exec fuel env (run elapsed C) start_world)) = Called op (inl e) :: pre ->
  ~ guarded C op ->
  exec (S fuel) env (run elapsed C) start_world
  = (note (Logged error (error_line e))
          (fst (exec fuel env (run elapsed C) start_world)),
     Some (inr tt, 0)) /\
  Forall (quiet C) pre.
Proof.
  intros Hpast Hop. destruct fuel as [|fuel].
  { rewrite exec_O_world in Hpast. discriminate Hpast. }
  assert (on_its_way C (note (ClockRead (clock env 0)) (@start_world Stamp))) as H0
    by (repeat constructor).
  pose proof (run_body_triple elapsed C env (clock env 0) fuel _ H0) as Hb.
  rewrite (run_unfold C env (S fuel)). rewrite (run_unfold C env fuel) in Hpast |- *.
  destruct (exec fuel env (run_body elapsed C (clock env 0))
                 (note (ClockRead (clock env 0)) start_world))
    as [w' [[[e'|[]] rest]|]] eqn:Eb; cbn [fst] in *.
  - destruct Hb as (op' & pre' & Hw' & _ & Hpre').
    destruct rest as [|rest].
    + rewrite exec_log_O in Hpast |- *. cbn [fst] in *.
      rewrite Hw' in Hpast. injection Hpast as -> -> ->.
      apply (exec_more_fuel _ _ _ _ _ _ _ 1) in Eb.
      rewrite Nat.add_1_r in Eb. cbn [Nat.add] in Eb. rewrite Eb. cbn beta iota.
      rewrite exec_log.
      split; [reflexivity|assumption].
    + rewrite exec_log in Hpast. discriminate Hpast.
  - destruct Hb as (pre' & Hw' & _). rewrite Hw' in Hpast. discriminate Hpast.
  - unfold on_its_way in Hb. rewrite Hpast in Hb.
    inversion Hb as [|? ? Hq _]. contradiction.
Qed.

(** How a completed run ends. *)
Lemma run_ends (C : Constants) env fuel w r rest :
  exec fuel env (run elapsed C) start_world = (w, Some (r, rest)) ->
  r = inr tt /\ (closed C w \/ reported C w).
Proof.
  intros H. pose proof (run_triple elapsed C env fuel start_world eq_refl) as Ht.
  rewrite H in Ht. destruct r as [e|[]]; [contradiction|]. split; [reflexivity|exact Ht].
Qed.

(** C6. When a call that no [try] block of its own guards fails, the
    top-level handler logs the error and the run is over: the failed
    call is the last call made, the handler's line is the last entry,
    and up to the failed call the browser was not asked to close and no
    error line was written.  So the browser is closed after a failure
    only when the failing call is the close itself.  A completed run
    ends either with the close resolved and no error line at all, or
    with a failed unguarded call and the handler's line. *)
Theorem failure_is_logged_and_nothing_follows (C : Constants) env fuel :
  (forall pre op e,
      transcript (fst (exec fuel env (run elapsed C) start_world))
      = pre ++ [Called op (inl e)] ->
      ~ guarded C op ->
      exists w,
        exec (S fuel) env (run elapsed C) start_world = (w, Some (inr tt, 0)) /\
        transcript w = pre ++ [Called op (inl e); Logged error (error_line e)] /\
        ~ In browser_close (operations pre) /\
        lines error pre = []) /\
  (forall w r rest,
      exec fuel env (run elapsed C) start_world = (w, Some (r, rest)) ->
      r = inr tt /\
      ((exists pre,
           transcript w = pre ++ [Called browser_close (inr tt)] /\
           ~ In browser_close (operations pre) /\
           lines error pre = [])
       \/
       (exists pre op e,
           transcript w = pre ++ [Called op (inl e); Logged error (error_line e)] /\
           ~ guarded C op /\
           ~ In browser_close (operations pre) /\
           lines error pre = []))).
Proof.
  split.
  - intros pre op e Ht Hop.
    apply past_of_transcript in Ht. rewrite rev_app_distr in Ht. cbn in Ht.
    destruct (unguarded_failure_reported C env fuel op e _ Ht Hop) as [Hrun Hpre].
    eexists. split; [exact Hrun|]. split.
    + rewrite transcript_note. unfold transcript. rewrite Ht. cbn.
      rewrite rev_involutive, <- app_assoc. reflexivity.
    + apply (quiet_facts C). rewrite <- (rev_involutive pre). now apply Forall_rev.
  - intros w r rest H. destruct (run_ends C env fuel w r rest H) as [-> Hw].
    split; [reflexivity|]. destruct Hw as [Hw|Hw].
    + left. destruct Hw as (pre & Hpast & Hpre). exists (rev pre).
      split; [unfold transcript; now rewrite Hpast|].
      apply (quiet_facts C). now apply Forall_rev.
    + right. destruct Hw as (e & op & pre & Hpast & Hop & Hpre).
      exists (rev pre), op, e.
      split; [unfold transcript; rewrite Hpast; cbn; now rewrite <- app_assoc|].
      split; [exact Hop|]. apply (quiet_facts C). now apply Forall_rev.
Qed.

End Claims.

(* ================================================================== *)
(** * Concrete runs *)

(** A settings file, and the constants the script sees for it. *)
Definition example_settings : Loaded := {|
  creds := {| username := "collector@example.com"; password := "hunter2" |};
  cookie := [JObj [("name", JStr "session"); ("value", JStr "0a1b2c")]];
  storage := seed_example;
  config := {|
    locators := {|
      login_page := "#login";
      agreement := ".policy__accept";
      login_field := "#email";
      login_btn := "#submit";
      password_field := "#password";
      buy_now := ".btn-buy";
      go_to_cart := ".btn-cart";
      checkout := ".btn-checkout";
      checkbox := ".select-all";
      pay := ".btn-pay";
      ordering := ".btn-order"
    |};
    target_product := "https://shop.example/products/1"
  |}
|}.

Definition example_constants : Constants := CONSTANTS example_settings.

(** Clock readings in whole milliseconds. *)
Definition milliseconds (now start : Z) : string :=
  Json.decimal (now - start).

(** The test double that plays [script] and resolves every later call. *)
Definition scripted (script : list (Err + unit)) : @Env Z := {|
  outcome := fun n => nth n script (inr tt);
  page_url := fun _ => "https://shop.example/pay/qr";
  clock := fun n => (1000 * Z.of_nat n)%Z
|}.

Definition all_resolve : @Env Z := scripted [].

(** The test double whose [n]-th call fails with [e], all others
    resolving. *)
Definition failing_at (n : nat) (e : Err) : @Env Z :=
  scripted (repeat (inr tt) n ++ [inl e]).

(** The run of the example settings against the test double that
    resolves everything. *)
Lemma happy_path_order_witness :
  exists w,
    (forall f, exec (52 + f) all_resolve (run milliseconds example_constants) start_world
               = (w, Some (inr tt, f))) /\
    length (operations (transcript w)) = 26 /\
    last (operations (transcript w)) = Some browser_close.
Proof.
  destruct (happy_path_order milliseconds example_constants all_resolve)
    as (w & Hrun & Hops); [reflexivity|].
  exists w. split; [exact Hrun|]. rewrite Hops. split; reflexivity.
Defined.

(** A run in which only the pay wait of line 96 fails: it ends in the
    top-level handler, with the failed wait as its last call, no warning
    and one error line. *)
Lemma pay_wait_timeout_ends_the_run :
  snd (exec 37 (failing_at 20 "TimeoutError")
            (run milliseconds example_constants) start_world)
  = Some (inr tt, 0) /\
  last (operations (transcript (fst
         (exec 37 (failing_at 20 "TimeoutError")
               (run milliseconds example_constants) start_world))))
  = Some (pay_wait example_constants) /\
  lines warn (transcript (fst
         (exec 37 (failing_at 20 "TimeoutError")
               (run milliseconds example_constants) start_world)))
  = [] /\
  lines error (transcript (fst
         (exec 37 (failing_at 20 "TimeoutError")
               (run milliseconds example_constants) start_world)))
  = ["[-] Error: TimeoutError"].
Proof. vm_compute. repeat split; reflexivity. Qed.

(** Two failed waits, then the button shows up. *)
Lemma buy_now_poll_witness :
  transcript (fst (exec 25
     (scripted (repeat (inr tt) 8 ++ [inl "TimeoutError"; inl "TimeoutError"; inr tt; inr tt]))
     (run milliseconds example_constants) start_world))
  = seeded example_constants 0%Z ++
    retries example_constants ["TimeoutError"; "TimeoutError"] ++
    [ Called (page_waitForSelector ".btn-buy"
                {| timeout := Some 3000%Z; visible := None; state := None |})
             (inr tt);
      Logged info "[+] ADD_TO_CART button found!";
      Called (locator_click ".btn-buy" false) (inr tt) ].
Proof.
  apply (proj1 (buy_now_poll milliseconds example_constants
                  (scripted (repeat (inr tt) 8 ++
                     [inl "TimeoutError"; inl "TimeoutError"; inr tt; inr tt])))
               ["TimeoutError"; "TimeoutError"] (inr tt)).
  reflexivity.
Defined.

(** The go-to-cart wait fails: warning, then the navigation wait. *)
Lemma cart_and_pay_click_failures_continue_witness :
  transcript (fst (exec 24
     (failing_at 11 "TimeoutError")
     (run milliseconds example_constants) start_world))
  = seeded example_constants 0%Z ++ retries example_constants [] ++
    spotted example_constants ++ bought example_constants ++
    [ Called (cart_wait example_constants) (inl "TimeoutError");
      Logged warn "[-] GO_TO_CART not available, retrying...";
      Called (page_waitForNavigation None) (inr tt) ].
Proof.
  apply (proj1 (cart_and_pay_click_failures_continue milliseconds example_constants
                  (failing_at 11 "TimeoutError"))
               [] "TimeoutError" (inr tt)).
  reflexivity.
Defined.

(** The agreement click fails. *)
Lemma unguarded_failures_abort_witness :
  exists w,
    (forall f, exec (9 + f) (failing_at 4 "TimeoutError")
                    (run milliseconds example_constants) start_world
               = (w, Some (inr tt, f))) /\
    lines error (transcript w) = ["[-] Error: TimeoutError"] /\
    last (operations (transcript w)) = Some (locator_click ".policy__accept" false).
Proof.
  destruct (proj1 (unguarded_failures_abort milliseconds example_constants
                     (failing_at 4 "TimeoutError")) "TimeoutError")
    as (w & Hrun & Ht & Herr); [reflexivity|].
  exists w. split; [exact Hrun|]. split; [exact Herr|]. rewrite Ht. reflexivity.
Defined.

(** A run in which only the close of line 118 fails: the failure is
    logged by the top-level handler, and the close is the last call the
    run made. *)
Lemma close_failure_is_logged_after_the_close :
  snd (exec 53 (failing_at 25 "Protocol error")
            (run milliseconds example_constants) start_world)
  = Some (inr tt, 0) /\
  last (operations (transcript (fst
         (exec 53 (failing_at 25 "Protocol error")
               (run milliseconds example_constants) start_world))))
  = Some browser_close /\
  lines error (transcript (fst
         (exec 53 (failing_at 25 "Protocol error")
               (run milliseconds example_constants) start_world)))
  = ["[-] Error: Protocol error"].
Proof. vm_compute. repeat split; reflexivity. Qed.

(** One event after the agreement click failed, the run is over. *)
Lemma failure_is_logged_and_nothing_follows_witness :
  exists w,
    exec 9 (failing_at 4 "TimeoutError")
         (run milliseconds example_constants) start_world
    = (w, Some (inr tt, 0)) /\
    last (transcript w) = Some (Logged error "[-] Error: TimeoutError") /\
    lines error (transcript w) = ["[-] Error: TimeoutError"].
Proof.
  destruct (proj1 (failure_is_logged_and_nothing_follows milliseconds example_constants
                     (failing_at 4 "TimeoutError") 8)
              [ ClockRead 0%Z;
                Called (puppeteer_launch false) (inr tt);
                Called browser_newPage (inr tt);
                Called (page_goto "https://shop.example/products/1") (inr tt);
                Logged info "[+] Open login page";
                Called (page_setViewport 1080 1024) (inr tt);
                Logged info "[+] setViewport to 1080x1024" ]
              (locator_click ".policy__accept" false) "TimeoutError")
    as (w & Hrun & Ht & _).
  - reflexivity.
  - intros [H|[H|[H|H]]]; discriminate H.
  - exists w. split; [exact Hrun|]. rewrite Ht. split; reflexivity.
Defined.

(** The first six events of the run that resolves everything. *)
Lemma launch_and_viewport_fixed_witness :
  exists rest,
    transcript (fst (exec 6 all_resolve (run milliseconds example_constants) start_world))
    = [ ClockRead 0%Z;
        Called (puppeteer_launch false) (inr tt);
        Called browser_newPage (inr tt);
        Called (page_goto "https://shop.example/products/1") (inr tt);
        Logged info "[+] Open login page";
        Called (page_setViewport 1080 1024) (inr tt) ] ++ rest.
Proof.
  apply (proj2 (proj2 (launch_and_viewport_fixed milliseconds example_constants
                         all_resolve 0))).
  reflexivity.
Defined.

(** The same settings under another account. *)
Definition other_account : Loaded := {|
  creds := {| username := "reseller@example.com"; password := "correct horse" |};
  cookie := cookie example_settings;
  storage := storage example_settings;
  config := config example_settings
|}.

(** Two accounts, one script. *)
Lemma credentials_never_read_witness :
  run milliseconds (CONSTANTS example_settings)
  = run milliseconds (CONSTANTS other_account) /\
  forall env fuel,
    exec fuel env (run milliseconds (CONSTANTS example_settings)) start_world
    = exec fuel env (run milliseconds (CONSTANTS other_account)) start_world.
Proof.
  apply (credentials_never_read milliseconds example_settings other_account);
    reflexivity.
Defined.

(* ================================================================== *)
(** * More of the script *)

Section Coverage.

Context {Stamp : Type} (elapsed : Stamp -> Stamp -> string).
Implicit Types (env : @Env Stamp) (w : @World Stamp).

(** ** Everything the successful run writes *)

(** Lines 107-118 when every call resolves: [url] is what [page.url()]
    reads after the last navigation, [now] the second clock reading. *)
Definition finished (C : Constants) (start : Stamp) (url : string) (now : Stamp)
  : list (@Entry Stamp) :=
  [ Called (page_hover (ORDERING (LOCATORS C))) (inr tt);
    Logged info "[+] BUY!!";
    Called (page_waitForNavigation None) (inr tt);
    UrlRead url;
    Logged info ("[+] QR URL: " +:+ url);
    Logged info "[+] ALL THING DONE! LET'S PAY!";
    Logged warn "[!] CTRL+C When Everything Done!";
    ClockRead now;
    Logged warn ("[!] Total processing time: " +:+ elapsed now start +:+ " ms");
    UrlRead url;
    Logged info ("[+] QR URL: " +:+ url);
    Called (delay 999999) (inr tt);
    Called browser_close (inr tt) ].

(** X1. The whole transcript of the run in which every call resolves:
    the calls, every log line in its place, and the two readings.  The
    URL is read after the last navigation wait and logged twice, the
    same text both times; the processing time is the difference between
    the reading taken then and the one taken before the [try] block; the
    run writes two warnings (the notices of lines 114-115) and no error
    line. *)
Theorem happy_path_transcript (C : Constants) env :
  starts_with env (repeat (inr tt) 26) ->
  exists w,
    (forall f, exec (52 + f) env (run elapsed C) start_world = (w, Some (inr tt, f))) /\
    transcript w
    = seeded C (clock env 0) ++ spotted C ++ bought C ++
      cart_entries C cart_clicked ++ checked_out C ++
      [ Called (pay_wait C) (inr tt); Logged info "[+] found PAY button" ] ++
      pay_entries C (inr tt) ++
      finished C (clock env 0) (page_url env 24) (clock env 24) /\
    lines warn (transcript w)
    = [ "[!] CTRL+C When Everything Done!";
        "[!] Total processing time: " +:+ elapsed (clock env 24) (clock env 0) +:+ " ms" ] /\
    lines error (transcript w) = [].
Proof.
  intros H. eexists. split.
  - intros f. run_to_poll H.
    run_poll (@nil Err) H. name_world Wp.
    do 3 flow_step H.
    run_cart cart_clicked H. name_world Wc.
    do 13 flow_step H.
    run_pay (@inr Err unit tt) H. name_world Wy.
    do 13 flow_step H.
    subst Wp Wc Wy. reflexivity.
  - split; [reflexivity|]. split; reflexivity.
Qed.

(** ** The blocks with a [try] of their own never fail *)

Ltac any_side := intros; exact I.

(** X2. Whatever the test double answers and from whatever world, the
    poll (lines 47-56), the go-to-cart block (lines 72-79) and the pay
    click (lines 98-104) never hand a failure on: each returns normally
    or is still running. *)
Theorem guarded_blocks_never_fail (C : Constants) env fuel w :
  match exec fuel env (poll_buy_now C) w with
  | (_, Some (inl _, _)) => False
  | _ => True
  end /\
  match exec fuel env (try_go_to_cart C) w with
  | (_, Some (inl _, _)) => False
  | _ => True
  end /\
  match exec fuel env (try_click_pay C) w with
  | (_, Some (inl _, _)) => False
  | _ => True
  end.
Proof.
  assert (forall m : flow unit,
             triple env (fun _ => True) m (fun _ _ => True) (fun _ _ => False)
                    (fun _ => True) ->
             match exec fuel env m w with
             | (_, Some (inl _, _)) => False
             | _ => True
             end) as Hnever.
  { intros m Hm. specialize (Hm fuel w I).
    destruct (exec fuel env m w) as [w' [[[e|a] rest]|]]; auto. }
  repeat split; apply Hnever.
  - unfold poll_buy_now. apply triple_while_not.
    apply triple_try_catch with (E1 := fun _ _ => True).
    + walk ltac:(any_side).
      intros _. apply triple_pure. intros; split; exact I.
    + intros e. walk ltac:(any_side).
      intros _. apply triple_pure. intros; split; exact I.
  - unfold try_go_to_cart.
    apply triple_try_catch with (E1 := fun _ _ => True); walk ltac:(any_side).
  - unfold try_click_pay.
    apply triple_try_catch with (E1 := fun _ _ => True); walk ltac:(any_side).
Qed.

(** ** Termination *)

(** [returns env m b P Q]: from a world of [P], [b] units of fuel are
    enough for [m] to return, normally in a world of [Q], or failing. *)
Definition returns env {A} (m : flow A) (b : nat) (P Q : World -> Prop) : Prop :=
  forall w, P w ->
    exists w' r rest,
      exec b env m w = (w', Some (r, rest)) /\ forall a, r = inr a -> Q w'.

Lemma returns_await env op (P Q : World -> Prop) :
  (forall w a, P w -> Q (settle op a w)) -> returns env (await op) 1 P Q.
Proof.
  intros H w HP. rewrite exec_await. do 3 eexists. split; [reflexivity|].
  intros a _. now apply H.
Qed.

Lemma returns_log env level line (P Q : World -> Prop) :
  (forall w, P w -> Q (note (Logged level line) w)) ->
  returns env (log level line) 1 P Q.
Proof.
  intros H w HP. rewrite exec_log. do 3 eexists. split; [reflexivity|].
  intros a _. now apply H.
Qed.

Lemma returns_perform env {T} (e : flowE T) (P Q : World -> Prop) :
  (forall w, P w -> Q (snd (handle env e w))) ->
  returns env (perform e) 1 P Q.
Proof.
  intros H w HP. rewrite exec_perform. do 3 eexists. split; [reflexivity|].
  intros a _. now apply H.
Qed.

Lemma returns_bind env {A B} (m : flow A) (k : A -> flow B) b1 b2
    (P Q1 Q : World -> Prop) :
  returns env m b1 P Q1 ->
  (forall a, returns env (k a) b2 Q1 Q) ->
  returns env (bind m k) (b1 + b2) P Q.
Proof.
  intros Hm Hk w HP. destruct (Hm w HP) as (w1 & r & rest & Em & HQ1).
  rewrite exec_flow_bind, (exec_more_fuel _ _ _ _ _ _ _ b2 Em).
  destruct r as [e|a].
  - do 3 eexists. split; [reflexivity|]. intros a [=].
  - destruct (Hk a w1 (HQ1 a eq_refl)) as (w2 & r2 & rest2 & Ek & HQ).
    rewrite Nat.add_comm, (exec_more_fuel _ _ _ _ _ _ _ rest Ek).
    do 3 eexists. split; [reflexivity|]. exact HQ.
Qed.

Lemma returns_try_catch env {A} (body : flow A) handler b1 b2
    (P Q : World -> Prop) :
  returns env body b1 P Q ->
  (forall e, returns env (handler e) b2 (fun _ => True) Q) ->
  returns env (try_catch body handler) (b1 + b2) P Q.
Proof.
  intros Hm Hk w HP. destruct (Hm w HP) as (w1 & r & rest & Em & HQ1).
  rewrite exec_try_catch, (exec_more_fuel _ _ _ _ _ _ _ b2 Em).
  destruct r as [e|a].
  - destruct (Hk e w1 I) as (w2 & r2 & rest2 & Ek & HQ).
    rewrite Nat.add_comm, (exec_more_fuel _ _ _ _ _ _ _ rest Ek).
    do 3 eexists. split; [reflexivity|]. exact HQ.
  - do 3 eexists. split; [reflexivity|]. intros a' [= <-]. now apply (HQ1 a).
Qed.

(** The poll returns once a wait resolves: three events for each call
    before it, and three for the wait that resolves. *)
Lemma returns_poll (C : Constants) env k d :
  outcome env k = inr tt ->
  returns env (poll_buy_now C) (3 * d + 3) (fun w => calls w + d = k) (fun _ => True).
Proof.
  intros Hk. induction d as [|d IH]; intros w Hw.
  - rewrite Nat.add_0_r in Hw. subst k.
    cbn [Nat.mul Nat.add]. rewrite (exec_poll_found C env w 0 Hk).
    do 3 eexists. split; [reflexivity | trivial].
  - replace (3 * S d + 3) with (S (S (S (3 * d + 3)))) by lia.
    destruct (outcome env (calls w)) as [e|[]] eqn:Ew.
    + rewrite (exec_poll_retry C env w e _ Ew).
      apply IH. cbn. lia.
    + rewrite (exec_poll_found C env w _ Ew).
      do 3 eexists. split; [reflexivity | trivial].
Qed.

Lemma returns_go_to_cart (C : Constants) env :
  returns env (try_go_to_cart C) 3 (fun _ => True) (fun _ => True).
Proof.
  intros w _. unfold try_go_to_cart. rewrite exec_try_await.
  destruct (outcome env (calls w)) as [e|[]].
  - rewrite exec_log. do 3 eexists. split; [reflexivity | trivial].
  - rewrite exec_try_await.
    destruct (outcome env (calls (settle _ _ w))) as [e|[]].
    + rewrite exec_log. do 3 eexists. split; [reflexivity | trivial].
    + rewrite exec_try_log_last. do 3 eexists. split; [reflexivity | trivial].
Qed.

Lemma returns_click_pay (C : Constants) env :
  returns env (try_click_pay C) 2 (fun _ => True) (fun _ => True).
Proof.
  intros w _. unfold try_click_pay. rewrite exec_try_await.
  destruct (outcome env (calls w)) as [e|[]].
  - rewrite exec_log. do 3 eexists. split; [reflexivity | trivial].
  - rewrite exec_try_log_last. do 3 eexists. split; [reflexivity | trivial].
Qed.

(** One statement of the script, counting the calls made so far. *)
Ltac count_step :=
  let H := fresh in
  lazymatch goal with
  | |- returns _ (bind (await _) _) (S ?b) (fun w => calls w = ?c) _ =>
      apply (returns_bind _ _ _ 1 b _ (fun w => calls w = S c));
      [ apply returns_await; intros ? ? H; cbn in *; congruence | intros _ ]
  | |- returns _ (bind (log _ _) _) (S ?b) (fun w => calls w = ?c) _ =>
      apply (returns_bind _ _ _ 1 b _ (fun w => calls w = c));
      [ apply returns_log; intros ? H; cbn in *; congruence | intros _ ]
  end.

(** One statement of the script, whatever the world. *)
Ltac plain_step :=
  lazymatch goal with
  | |- returns _ (bind (await _) _) (S ?b) _ _ =>
      apply (returns_bind _ _ _ 1 b _ (fun _ => True));
      [ apply returns_await; trivial | intros _ ]
  | |- returns _ (bind (log _ _) _) (S ?b) _ _ =>
      apply (returns_bind _ _ _ 1 b _ (fun _ => True));
      [ apply returns_log; trivial | intros _ ]
  | |- returns _ (bind (perform _) _) (S ?b) _ _ =>
      apply (returns_bind _ _ _ 1 b _ (fun _ => True));
      [ apply returns_perform; trivial | intros ? ]
  end.

Lemma run_body_returns (C : Constants) env n start :
  outcome env (8 + n) = inr tt ->
  returns env (run_body elapsed C start) (14 + ((3 * n + 3) + (3 + (3 + (13 + (2 + 13))))))
    (fun w => calls w = 0) (fun _ => True).
Proof.
  intros Hn. unfold run_body. cbn [Nat.add].
  do 14 count_step.
  apply returns_bind with (Q1 := fun _ => True).
  { intros w Hw. apply (returns_poll C env (8 + n) n Hn). lia. }
  intros _. do 3 plain_step.
  apply (returns_bind _ _ _ 3 _ _ (fun _ => True)); [apply returns_go_to_cart|].
  intros _. do 13 plain_step.
  apply (returns_bind _ _ _ 2 _ _ (fun _ => True)); [apply returns_click_pay|].
  intros _. do 12 plain_step.
  apply returns_await; trivial.
Qed.

(** X3. The poll is the only place where the script can wait for ever:
    as soon as some call from the ninth on resolves (the poll cannot last
    beyond it), the run returns, and normally, whatever else fails; if
    that call is number [8 + n], within [3 * n + 53] events. *)
Theorem run_returns_unless_the_poll_never_ends (C : Constants) env n :
  outcome env (8 + n) = inr tt ->
  exists w rest,
    exec (3 * n + 53) env (run elapsed C) start_world = (w, Some (inr tt, rest)).
Proof.
  intros Hn.
  assert (returns env (run elapsed C) (1 + ((3 * n + 51) + 1))
            (fun w => calls w = 0) (fun _ => True)) as Hrun.
  { unfold run.
    apply (returns_bind _ _ _ 1 _ _ (fun w => calls w = 0)).
    - apply returns_perform. intros w Hw. exact Hw.
    - intros start. apply returns_try_catch.
      + replace (3 * n + 51)
          with (14 + ((3 * n + 3) + (3 + (3 + (13 + (2 + 13)))))) by lia.
        apply run_body_returns. exact Hn.
      + intros e. apply returns_log. trivial. }
  destruct (Hrun start_world eq_refl) as (w & r & rest & Hw & _).
  replace (1 + (3 * n + 51 + 1)) with (3 * n + 53) in Hw by lia.
  destruct (run_ends elapsed C env _ w r rest Hw) as [-> _].
  exists w, rest. exact Hw.
Qed.

(** ** What the script reads of the settings *)

(** X6. Of the settings the script reads the target URL, the cookies,
    the local-storage seed and seven selectors (agreement, buy_now,
    go_to_cart, checkout, checkbox, pay, ordering).  The credentials and
    the four login selectors (login_page, login_field, login_btn,
    password_field) are exported by the adapter and read nowhere: two
    settings that differ only there give the same script. *)
Theorem script_reads_seven_locators (l1 l2 : Loaded) :
  cookie l1 = cookie l2 ->
  storage l1 = storage l2 ->
  target_product (config l1) = target_product (config l2) ->
  agreement (locators (config l1)) = agreement (locators (config l2)) ->
  buy_now (locators (config l1)) = buy_now (locators (config l2)) ->
  go_to_cart (locators (config l1)) = go_to_cart (locators (config l2)) ->
  checkout (locators (config l1)) = checkout (locators (config l2)) ->
  checkbox (locators (config l1)) = checkbox (locators (config l2)) ->
  pay (locators (config l1)) = pay (locators (config l2)) ->
  ordering (locators (config l1)) = ordering (locators (config l2)) ->
  run elapsed (CONSTANTS l1) = run elapsed (CONSTANTS l2).
Proof.
  destruct l1 as [c1 k1 s1 [[] t1]], l2 as [c2 k2 s2 [[] t2]]; cbn.
  intros -> -> -> -> -> -> -> -> -> ->. reflexivity.
Qed.

(** ** One browser *)

(** The number of launches in a list of entries. *)
Definition launches (entries : list (@Entry Stamp)) : nat :=
  list_sum (map (fun entry => match entry with
                              | Called (puppeteer_launch _) _ => 1
                              | _ => 0
                              end) entries).

Lemma launches_app (l1 l2 : list (@Entry Stamp)) :
  launches (l1 ++ l2) = launches l1 + launches l2.
Proof. unfold launches. now rewrite map_app, list_sum_app. Qed.

Lemma launches_rev (l : list (@Entry Stamp)) : launches (rev l) = launches l.
Proof.
  induction l as [|entry l IH]; [reflexivity|].
  cbn [rev]. rewrite launches_app, IH.
  change (entry :: l) with ([entry] ++ l). rewrite launches_app. lia.
Qed.

Lemma launches_cons (entry : @Entry Stamp) (l : list (@Entry Stamp)) :
  launches (entry :: l)
  = match entry with
    | Called (puppeteer_launch _) _ => 1
    | _ => 0
    end + launches l.
Proof. reflexivity. Qed.

Ltac launched_side :=
  intros; cbn [past settle note handle fst snd] in *;
  rewrite ?launches_cons; cbn beta iota; repeat split; lia.

Lemma run_launches_once (C : Constants) env :
  triple env (fun w => past w = []) (run elapsed C)
    (fun _ w => launches (past w) = 1)
    (fun _ _ => False)
    (fun w => launches (past w) <= 1).
Proof.
  unfold run. apply triple_bind with (Q1 := fun _ w => launches (past w) = 0).
  { apply triple_perform; intros w H; cbn [past note handle fst snd]; rewrite H;
      cbn; lia. }
  intros start. apply triple_try_catch with (E1 := fun _ w => launches (past w) = 1).
  - unfold run_body, poll_buy_now, try_go_to_cart, try_click_pay.
    apply triple_bind with (Q1 := fun _ w => launches (past w) = 1).
    { apply triple_await; launched_side. }
    walk ltac:(launched_side).
  - intros e. apply triple_log; launched_side.
Qed.

Lemma run_starts_with_launch (C : Constants) env fuel :
  exists rest,
    transcript (fst (exec (2 + fuel) env (run elapsed C) start_world))
    = [ ClockRead (clock env 0);
        Called (puppeteer_launch false) (outcome env 0) ] ++ rest.
Proof.
  destruct (transcript_grows (run elapsed C) 2 env start_world fuel) as [rest ->].
  exists rest. f_equal.
  unfold run. rewrite exec_flow_bind, exec_performance_now. cbn beta iota.
  unfold run_body. rewrite exec_try_await. cbn [calls note start_world].
  destruct (outcome env 0) as [e|[]]; now rewrite exec_O_world.
Qed.

(** X7. A run launches one browser and no more: no transcript, of a run
    cut short or not, holds two launches, and from the second event on
    it holds exactly one. *)
Theorem one_browser_per_run (C : Constants) env fuel :
  launches (transcript (fst (exec fuel env (run elapsed C) start_world))) <= 1 /\
  launches (transcript (fst (exec (2 + fuel) env (run elapsed C) start_world))) = 1.
Proof.
  assert (forall n,
             launches (transcript (fst (exec n env (run elapsed C) start_world))) <= 1)
    as Hmost.
  { intros n. unfold transcript. rewrite launches_rev.
    pose proof (run_launches_once C env n start_world eq_refl) as H.
    destruct (exec n env (run elapsed C) start_world) as [w [[[e|a] rest]|]];
      cbn [fst]; [contradiction | lia | exact H]. }
  split; [apply Hmost|].
  pose proof (Hmost (2 + fuel)) as Hle.
  destruct (run_starts_with_launch C env fuel) as [rest Hrest].
  rewrite Hrest in Hle |- *. rewrite launches_app in Hle |- *.
  unfold launches at 1 in Hle. unfold launches at 1. cbn in *. lia.
Qed.

End Coverage.

(* ================================================================== *)
(** * More of the page functions and of the adapter *)

Lemma page_eq (p q : Page) :
  localStorage p = localStorage q -> elements p = elements q -> p = q.
Proof. destruct p, q; cbn; intros -> ->; reflexivity. Qed.

(** X4. Seeding the local storage (lines 36-40) a second time changes
    nothing, so the reload of line 43 or a restart of the script on the
    same profile finds the same storage; it leaves the document alone; it
    removes no key the page had; and an empty seed leaves the page as it
    was. *)
Theorem seeding_is_idempotent (JSON_stringify : JSON -> string)
    (seed : gmap string JSON) (p : Page) :
  seed_local_storage JSON_stringify seed (seed_local_storage JSON_stringify seed p)
  = seed_local_storage JSON_stringify seed p /\
  elements (seed_local_storage JSON_stringify seed p) = elements p /\
  (forall key, is_Some (localStorage p !! key) ->
               is_Some (localStorage (seed_local_storage JSON_stringify seed p) !! key)) /\
  seed_local_storage JSON_stringify ∅ p = p.
Proof.
  split; [|split; [|split]].
  - apply page_eq; [|reflexivity]. apply map_eq. intros key.
    rewrite !seed_local_storage_lookup. destruct (seed !! key); reflexivity.
  - reflexivity.
  - intros key Hkey. rewrite seed_local_storage_lookup.
    destruct (seed !! key); [eexists; reflexivity | exact Hkey].
  - apply page_eq; [|reflexivity]. apply map_eq. intros key.
    rewrite seed_local_storage_lookup, lookup_empty. reflexivity.
Qed.

Lemma pin_on_top_idempotent (btn : Element) :
  pin_on_top (pin_on_top btn) = pin_on_top btn.
Proof.
  destruct btn as [t a s]. unfold pin_on_top; cbn. f_equal.
  apply map_eq. intros prop.
  destruct (decide ("display" = prop)) as [<-|?];
    [|destruct (decide ("opacity" = prop)) as [<-|?];
      [|destruct (decide ("zIndex" = prop)) as [<-|?];
        [|destruct (decide ("position" = prop)) as [<-|?]]]];
    repeat first [ rewrite lookup_insert_eq
                 | rewrite lookup_insert_ne by (assumption || discriminate) ];
    reflexivity.
Qed.

(** X5. Running the highlight (lines 62-70) again changes nothing more,
    as long as the selector still finds the same element: the four
    assignments overwrite what they wrote. *)
Theorem highlight_is_idempotent
    (querySelector : list Element -> string -> Err + option nat)
    (selector : string) (p p' : Page) :
  highlight querySelector selector p = inr p' ->
  querySelector (elements p') selector = querySelector (elements p) selector ->
  highlight querySelector selector p' = inr p'.
Proof.
  unfold highlight. intros H Hsame. rewrite Hsame.
  destruct (querySelector (elements p) selector) as [e|[i|]]; try discriminate.
  - injection H as <-. cbn. f_equal. apply page_eq; [reflexivity|]. cbn.
    rewrite list_alter_alter_eq. apply list_alter_ext; [|reflexivity].
    intros btn _. apply pin_on_top_idempotent.
  - injection H as <-. reflexivity.
Qed.


(** A seed with numbers at the edges of Number::toString: a sum that
    is not the fraction it looks like, a whole number no double holds
    (the double it becomes is stored), the first number written with an
    exponent on each side, the largest written without, minus zero, the
    values that are no JSON numbers; and a string of control
    characters. *)
Definition seed_edges : gmap string JSON :=
  <["sum" := JNum (1 / 10 + 2 / 10)]>
    (<["odd" := JNum (9007199254740992 + 1)]>
       (<["tiny" := JNum (1 / 10000000)]>
          (<["small" := JNum (1 / 1000000)]>
             (<["large" := JNum 100000000000000000000]>
                (<["minus" := JNum (- 0)]>
                   (<["nan" := JNum nan]>
                      (<["inf" := JNum infinity]>
                         (<["ctl" := JStr (String "001" (String "009" (String "031" "")))]>
                            ∅)))))))).

(** X8. What the injection of lines 36-40 stores, with the serializer
    of ECMA-262, for numbers and strings at the edges of the format:
    0.1 + 0.2 is stored as 0.30000000000000004; 2^53 + 1 as
    9007199254740992; one ten-millionth as 1e-7 and one millionth as
    0.000001; 10^20 in plain digits; minus zero as 0; NaN and Infinity
    as null; control characters as [\u0001], [\t], [\u001f]. *)
Theorem seeding_at_the_edges (p : Page) :
  localStorage (seed_local_storage Json.stringify seed_edges p) !! "sum"
  = Some "0.30000000000000004" /\
  localStorage (seed_local_storage Json.stringify seed_edges p) !! "odd"
  = Some "9007199254740992" /\
  localStorage (seed_local_storage Json.stringify seed_edges p) !! "tiny"
  = Some "1e-7" /\
  localStorage (seed_local_storage Json.stringify seed_edges p) !! "small"
  = Some "0.000001" /\
  localStorage (seed_local_storage Json.stringify seed_edges p) !! "large"
  = Some "100000000000000000000" /\
  localStorage (seed_local_storage Json.stringify seed_edges p) !! "minus"
  = Some "0" /\
  localStorage (seed_local_storage Json.stringify seed_edges p) !! "nan"
  = Some "null" /\
  localStorage (seed_local_storage Json.stringify seed_edges p) !! "inf"
  = Some "null" /\
  localStorage (seed_local_storage Json.stringify seed_edges p) !! "ctl"
  = Some (quoted (String Json.backslash "u0001" +:+ String Json.backslash "t" +:+
                  String Json.backslash "u001f")).
Proof.
  rewrite !seed_local_storage_lookup. repeat split; vm_compute; reflexivity.
Qed.

(* ================================================================== *)
(** * Concrete runs, continued *)

(** The successful run of the example settings: its two warnings, with
    the clock of the test double reading 24000 ms at the end. *)
Lemma happy_path_transcript_witness :
  exists w,
    (forall f, exec (52 + f) all_resolve (run milliseconds example_constants) start_world
               = (w, Some (inr tt, f))) /\
    lines warn (transcript w)
    = [ "[!] CTRL+C When Everything Done!";
        "[!] Total processing time: 24000 ms" ] /\
    lines error (transcript w) = [].
Proof.
  destruct (happy_path_transcript milliseconds example_constants all_resolve)
    as (w & Hrun & _ & Hwarn & Herr); [reflexivity|].
  exists w. split; [exact Hrun|]. split; [|exact Herr].
  rewrite Hwarn. reflexivity.
Defined.

(** Two failed waits, every other call resolving: the run returns
    within 59 events. *)
Lemma run_returns_unless_the_poll_never_ends_witness :
  exists w rest,
    exec 59
      (scripted (repeat (inr tt) 8 ++ [inl "TimeoutError"; inl "TimeoutError"]))
      (run milliseconds example_constants) start_world
    = (w, Some (inr tt, rest)).
Proof.
  apply (run_returns_unless_the_poll_never_ends milliseconds example_constants
           (scripted (repeat (inr tt) 8 ++ [inl "TimeoutError"; inl "TimeoutError"])) 2).
  reflexivity.
Defined.

(** A selector engine for tag names: the first element with that tag. *)
Fixpoint first_with_tag (selector : string) (els : list Element) (i : nat) : option nat :=
  match els with
  | [] => None
  | el :: rest =>
      if String.eqb (tag el) selector then Some i
      else first_with_tag selector rest (S i)
  end.

Definition by_tag (els : list Element) (selector : string) : Err + option nat :=
  inr (first_with_tag selector els 0).

Definition example_page : Page := {|
  localStorage := ∅;
  elements := [ {| tag := "div"; attributes := ∅; style := ∅ |};
                {| tag := "button"; attributes := ∅;
                   style := <["opacity" := "0"]> ∅ |} ]
|}.

Definition example_page_highlighted : Page := {|
  localStorage := ∅;
  elements := [ {| tag := "div"; attributes := ∅; style := ∅ |};
                pin_on_top {| tag := "button"; attributes := ∅;
                              style := <["opacity" := "0"]> ∅ |} ]
|}.

Lemma highlight_is_idempotent_witness :
  highlight by_tag "button" example_page_highlighted = inr example_page_highlighted.
Proof.
  apply (highlight_is_idempotent by_tag "button" example_page); reflexivity.
Defined.

(** The example settings with other credentials and other login
    selectors. *)
Definition other_login : Loaded := {|
  creds := {| username := "reseller@example.com"; password := "correct horse" |};
  cookie := cookie example_settings;
  storage := storage example_settings;
  config := {|
    locators := {|
      login_page := "#signin";
      agreement := ".policy__accept";
      login_field := "#user";
      login_btn := "#go";
      password_field := "#secret";
      buy_now := ".btn-buy";
      go_to_cart := ".btn-cart";
      checkout := ".btn-checkout";
      checkbox := ".select-all";
      pay := ".btn-pay";
      ordering := ".btn-order"
    |};
    target_product := "https://shop.example/products/1"
  |}
|}.

Lemma script_reads_seven_locators_witness :
  run milliseconds (CONSTANTS example_settings)
  = run milliseconds (CONSTANTS other_login).
Proof.
  apply (script_reads_seven_locators milliseconds example_settings other_login);
    reflexivity.
Defined.
